(** * Session state and leaderboard of the card-game backend

    A shallow embedding of [backend/main.go] and of the [cardgenerator]
    package, with the properties the specification states about them.

    The program talks to three collaborators that are not part of the
    repository: the Go standard library ([strconv], [encoding/json],
    [unicode/utf8], [math/rand]), the Redis client and server, and the
    WebSocket connection.  The library functions the handlers call are
    modelled here as executable functions on byte strings; the Redis
    server as a key space of hashes and sorted sets, reached through the
    commands the handlers issue; the connection as a script of what the
    peer does.  The server is taken to be reachable: the command errors
    of the model are the type errors of the server. *)

From Stdlib Require Import ZArith String Ascii List Sorted Permutation.
From stdpp Require Import gmap strings list sorting.

Local Open Scope string_scope.
Local Open Scope Z_scope.

Set Warnings "-register-all".

(** ** Machine integers and bytes *)

Definition minInt64 : Z := - 2 ^ 63.
Definition maxInt64 : Z := 2 ^ 63 - 1.
Definition maxUint64 : Z := 2 ^ 64 - 1.

(** Two's complement wrap-around of Go's [int] on a 64-bit platform. *)
Definition wrap64 (n : Z) : Z := (n + 2 ^ 63) mod 2 ^ 64 - 2 ^ 63.

Definition byte_val (a : ascii) : Z := Z.of_N (N_of_ascii a).
Definition byte_of (n : Z) : ascii := ascii_of_N (Z.to_N n).

Definition quote_char : ascii := "034"%char.
Definition backslash : ascii := "092"%char.

(** ** Package [strconv] *)

Module strconv.

Inductive NumError := ErrSyntax | ErrRange.

Definition is_digit (a : ascii) : bool :=
  (48 <=? byte_val a) && (byte_val a <=? 57).

(** The digit loop of [ParseUint(s, 10, 64)]: a byte that is no
    decimal digit is a syntax error; the range error is reported as soon
    as the accumulator overflows, before the rest is looked at. *)
Fixpoint parse_uint_loop (s : string) (n : Z) : Z * option NumError :=
  match s with
  | EmptyString => (n, None)
  | String c r =>
      if is_digit c then
        if maxUint64 / 10 + 1 <=? n then (maxUint64, Some ErrRange)
        else
          let n1 := n * 10 + (byte_val c - 48) in
          if maxUint64 <? n1 then (maxUint64, Some ErrRange)
          else parse_uint_loop r n1
      else (0, Some ErrSyntax)
  end.

Definition ParseUint (s : string) : Z * option NumError :=
  match s with
  | EmptyString => (0, Some ErrSyntax)
  | _ => parse_uint_loop s 0
  end.

(** [ParseInt(s, 10, 0)] with a 64-bit [int]. *)
Definition ParseInt (s : string) : Z * option NumError :=
  match s with
  | EmptyString => (0, Some ErrSyntax)
  | String c r =>
      let neg := Ascii.eqb c "-" in
      let body := if Ascii.eqb c "+" || neg then r else s in
      match ParseUint body with
      | (_, Some ErrSyntax) => (0, Some ErrSyntax)
      | (un, _) =>
          let cutoff := 2 ^ 63 in
          if negb neg && (cutoff <=? un) then (cutoff - 1, Some ErrRange)
          else if neg && (cutoff <? un) then (- cutoff, Some ErrRange)
          else (if neg then - un else un, None)
      end
  end.

(** [Atoi] is [ParseInt(s, 10, 0)] converted to [int]; its fast path for
    short strings computes the same result. *)
Definition Atoi (s : string) : Z * option NumError := ParseInt s.

(** [ParseBool]: the twelve accepted spellings, an error otherwise. *)
Definition ParseBool (s : string) : bool * option NumError :=
  if existsb (String.eqb s) ["1"; "t"; "T"; "TRUE"; "true"; "True"]
  then (true, None)
  else if existsb (String.eqb s) ["0"; "f"; "F"; "FALSE"; "false"; "False"]
  then (false, None)
  else (false, Some ErrSyntax).

(** Decimal digits of a non-negative number, most significant first,
    put in front of [acc]; [fuel] bounds the number of digits. *)
Fixpoint format_uint (fuel : nat) (n : Z) (acc : string) : string :=
  match fuel with
  | O => acc
  | S f =>
      let acc' := String (byte_of (48 + n mod 10)) acc in
      if n <? 10 then acc' else format_uint f (n / 10) acc'
  end.

(** [AppendInt(b, n, 10)] for an [int64]. *)
Definition FormatInt (n : Z) : string :=
  if n <? 0 then String "-" (format_uint 20 (- n) EmptyString)
  else format_uint 20 n EmptyString.

End strconv.

(** ** Package [unicode/utf8] *)

Module utf8.

Definition RuneError : Z := 0xFFFD.

Definition is_cont (b : Z) : bool := (0x80 <=? b) && (b <=? 0xBF).

Definition in_range (lo hi b : Z) : bool := (lo <=? b) && (b <=? hi).

(** [DecodeRuneInString]: the first rune of [s] and its width in bytes;
    [(RuneError, 1)] for an encoding that is not valid, [(RuneError, 0)]
    for the empty string. *)
Definition DecodeRune (s : string) : Z * nat :=
  match s with
  | EmptyString => (RuneError, 0%nat)
  | String a0 r0 =>
      let b0 := byte_val a0 in
      if b0 <? 0x80 then (b0, 1%nat)
      else if in_range 0xC2 0xDF b0 then
        match r0 with
        | String a1 _ =>
            let b1 := byte_val a1 in
            if is_cont b1 then ((b0 - 0xC0) * 64 + (b1 - 0x80), 2%nat)
            else (RuneError, 1%nat)
        | _ => (RuneError, 1%nat)
        end
      else if in_range 0xE0 0xEF b0 then
        match r0 with
        | String a1 (String a2 _) =>
            let b1 := byte_val a1 in
            let b2 := byte_val a2 in
            let lo := if b0 =? 0xE0 then 0xA0 else 0x80 in
            let hi := if b0 =? 0xED then 0x9F else 0xBF in
            if in_range lo hi b1 && is_cont b2
            then (((b0 - 0xE0) * 64 + (b1 - 0x80)) * 64 + (b2 - 0x80), 3%nat)
            else (RuneError, 1%nat)
        | _ => (RuneError, 1%nat)
        end
      else if in_range 0xF0 0xF4 b0 then
        match r0 with
        | String a1 (String a2 (String a3 _)) =>
            let b1 := byte_val a1 in
            let b2 := byte_val a2 in
            let b3 := byte_val a3 in
            let lo := if b0 =? 0xF0 then 0x90 else 0x80 in
            let hi := if b0 =? 0xF4 then 0x8F else 0xBF in
            if in_range lo hi b1 && is_cont b2 && is_cont b3
            then ((((b0 - 0xF0) * 64 + (b1 - 0x80)) * 64 + (b2 - 0x80)) * 64
                  + (b3 - 0x80), 4%nat)
            else (RuneError, 1%nat)
        | _ => (RuneError, 1%nat)
        end
      else (RuneError, 1%nat)
  end.

Definition is_surrogate (r : Z) : bool := (0xD800 <=? r) && (r <? 0xE000).

(** [EncodeRune]: the UTF-8 encoding of [r]; a surrogate or a value out
    of range is written as [RuneError]. *)
Definition EncodeRune (r : Z) : string :=
  let r := if (r <? 0) || (0x10FFFF <? r) || is_surrogate r
           then RuneError else r in
  if r <? 0x80 then String (byte_of r) EmptyString
  else if r <? 0x800 then
    String (byte_of (0xC0 + r / 64))
      (String (byte_of (0x80 + r mod 64)) EmptyString)
  else if r <? 0x10000 then
    String (byte_of (0xE0 + r / 4096))
      (String (byte_of (0x80 + (r / 64) mod 64))
         (String (byte_of (0x80 + r mod 64)) EmptyString))
  else
    String (byte_of (0xF0 + r / 262144))
      (String (byte_of (0x80 + (r / 4096) mod 64))
         (String (byte_of (0x80 + (r / 64) mod 64))
            (String (byte_of (0x80 + r mod 64)) EmptyString))).

(** [ValidString]: every rune of [s] decodes; [skip] counts the bytes
    still belonging to the rune decoded last. *)
Fixpoint valid_from (skip : nat) (s : string) : bool :=
  match s with
  | EmptyString => true
  | String _ r =>
      match skip with
      | S k => valid_from k r
      | O =>
          let '(c, size) := DecodeRune s in
          if (c =? RuneError) && (size =? 1)%nat then false
          else valid_from (size - 1) r
      end
  end.

Definition ValidString (s : string) : bool := valid_from 0 s.

End utf8.

(** ** Package [encoding/json] *)

Module json.

(** A JSON text as the scanner sees it.  A number keeps its literal: no
    handler of the program looks at the value of a number, only at the
    fact that a value is one. *)
Inductive value :=
| JNull
| JBool (b : bool)
| JNum (lit : string)
| JStr (s : string)
| JArr (elems : list value)
| JObj (fields : list (string * value)).

(** *** Strings *)

Definition hex_digit (n : Z) : ascii :=
  if n <? 10 then byte_of (48 + n) else byte_of (87 + n).

Definition hex_val (a : ascii) : option Z :=
  let b := byte_val a in
  if (48 <=? b) && (b <=? 57) then Some (b - 48)
  else if (97 <=? b) && (b <=? 102) then Some (b - 87)
  else if (65 <=? b) && (b <=? 70) then Some (b - 55)
  else None.

(** [getu4]: the value of four hexadecimal digits. *)
Definition getu4 (h1 h2 h3 h4 : ascii) : option Z :=
  match hex_val h1, hex_val h2, hex_val h3, hex_val h4 with
  | Some a, Some b, Some c, Some d => Some (((a * 16 + b) * 16 + c) * 16 + d)
  | _, _, _, _ => None
  end.

(** [htmlSafeSet]: the ASCII bytes the encoder writes as they are. *)
Definition html_safe (b : Z) : bool :=
  (0x20 <=? b) && negb (b =? 34) && negb (b =? 92)
  && negb (b =? 60) && negb (b =? 62) && negb (b =? 38).

Definition escape_ascii (b : Z) : string :=
  if (b =? 92) || (b =? 34) then String backslash (String (byte_of b) EmptyString)
  else if b =? 10 then String backslash "n"
  else if b =? 13 then String backslash "r"
  else if b =? 9 then String backslash "t"
  else String backslash
         (String "u" (String "0" (String "0"
            (String (hex_digit (b / 16))
               (String (hex_digit (b mod 16)) EmptyString))))).

(** The loop of the string encoder.  While [skip] is positive the byte
    at hand belongs to the rune decoded last: it is copied when [copy]
    is set and dropped otherwise. *)
Fixpoint quote_body (copy : bool) (skip : nat) (s : string) : string :=
  match s with
  | EmptyString => EmptyString
  | String a r =>
      match skip with
      | S k =>
          if copy then String a (quote_body copy k r) else quote_body copy k r
      | O =>
          let b := byte_val a in
          if b <? 0x80 then
            if html_safe b then String a (quote_body true 0 r)
            else escape_ascii b ++ quote_body true 0 r
          else
            let '(c, size) := utf8.DecodeRune s in
            if (c =? utf8.RuneError) && (size =? 1)%nat then
              String backslash "ufffd" ++ quote_body true 0 r
            else if (c =? 0x2028) || (c =? 0x2029) then
              String backslash "u202"
              ++ String (hex_digit (c mod 16)) (quote_body false (size - 1) r)
            else String a (quote_body true (size - 1) r)
      end
  end.

Definition quote (s : string) : string :=
  String quote_char (quote_body true 0 s ++ String quote_char EmptyString).

Definition simple_escape (e : ascii) : option ascii :=
  let b := byte_val e in
  if (b =? 34) || (b =? 92) || (b =? 47) then Some e
  else if b =? 98 then Some (byte_of 8)
  else if b =? 102 then Some (byte_of 12)
  else if b =? 110 then Some (byte_of 10)
  else if b =? 114 then Some (byte_of 13)
  else if b =? 116 then Some (byte_of 9)
  else None.

Definition is_high (r : Z) : bool := (0xD800 <=? r) && (r <? 0xDC00).
Definition is_low (r : Z) : bool := (0xDC00 <=? r) && (r <? 0xE000).

(** [utf16.DecodeRune] on a valid pair. *)
Definition combine (hi lo : Z) : Z :=
  (hi - 0xD800) * 1024 + (lo - 0xDC00) + 0x10000.

Definition flush (pend : option Z) : string :=
  match pend with
  | Some _ => utf8.EncodeRune utf8.RuneError
  | None => EmptyString
  end.

Definition emit (pre : string) (k : option (string * string))
  : option (string * string) :=
  match k with
  | Some (out, rest) => Some (pre ++ out, rest)
  | None => None
  end.

(** The string literal after its opening quote: the decoded string and
    the text after the closing quote, [None] when the literal is not well
    formed.  [pend] is a high surrogate read from a [\u] escape and not
    yet paired; [skip] counts the bytes left of the rune decoded last. *)
Fixpoint unquote_body (pend : option Z) (skip : nat) (s : string)
  : option (string * string) :=
  match s with
  | EmptyString => None
  | String c r =>
      match skip with
      | S k => unquote_body pend k r
      | O =>
          let b := byte_val c in
          if b =? 34 then Some (flush pend, r)
          else if b =? 92 then
            match r with
            | String e r1 =>
                if byte_val e =? 117 then
                  match r1 with
                  | String h1 (String h2 (String h3 (String h4 r2))) =>
                      match getu4 h1 h2 h3 h4 with
                      | Some rr =>
                          match pend with
                          | Some hi =>
                              if is_low rr then
                                emit (utf8.EncodeRune (combine hi rr))
                                  (unquote_body None 0 r2)
                              else if is_high rr then
                                emit (flush pend) (unquote_body (Some rr) 0 r2)
                              else
                                emit (flush pend ++ utf8.EncodeRune rr)
                                  (unquote_body None 0 r2)
                          | None =>
                              if is_high rr then unquote_body (Some rr) 0 r2
                              else emit (utf8.EncodeRune rr)
                                     (unquote_body None 0 r2)
                          end
                      | None => None
                      end
                  | _ => None
                  end
                else
                  match simple_escape e with
                  | Some ch =>
                      emit (flush pend ++ String ch EmptyString)
                        (unquote_body None 0 r1)
                  | None => None
                  end
            | EmptyString => None
            end
          else if b <? 0x20 then None
          else if b <? 0x80 then
            emit (flush pend ++ String c EmptyString) (unquote_body None 0 r)
          else
            let '(rr, size) := utf8.DecodeRune s in
            emit (flush pend ++ utf8.EncodeRune rr)
              (unquote_body None (size - 1) r)
      end
  end.

(** *** Numbers *)

Fixpoint take_digits (s : string) : string * string :=
  match s with
  | EmptyString => (EmptyString, EmptyString)
  | String c r =>
      if strconv.is_digit c then
        let '(d, rest) := take_digits r in (String c d, rest)
      else (EmptyString, s)
  end.

(** The number literal at the head of [s], by the grammar of the
    scanner: an optional minus, [0] or a digit sequence that does not
    start with [0], an optional fraction, an optional exponent. *)
Definition parse_number (s : string) : option (string * string) :=
  let '(sign, s1) :=
    match s with
    | String "-" r => ("-", r)
    | _ => (EmptyString, s)
    end in
  match s1 with
  | String c r =>
      if strconv.is_digit c then
        let '(int, s2) :=
          if Ascii.eqb c "0" then ("0", r)
          else let '(d, rest) := take_digits r in (String c d, rest) in
        let frac :=
          match s2 with
          | String "." r2 =>
              let '(d, rest) := take_digits r2 in
              match d with
              | EmptyString => None
              | _ => Some ("." ++ d, rest)
              end
          | _ => Some (EmptyString, s2)
          end in
        match frac with
        | None => None
        | Some (fr, s3) =>
            let exp :=
              match s3 with
              | String e r3 =>
                  if Ascii.eqb e "e" || Ascii.eqb e "E" then
                    let '(sg, r4) :=
                      match r3 with
                      | String "+" r' => ("+", r')
                      | String "-" r' => ("-", r')
                      | _ => (EmptyString, r3)
                      end in
                    let '(d, rest) := take_digits r4 in
                    match d with
                    | EmptyString => None
                    | _ => Some (String e (sg ++ d), rest)
                    end
                  else Some (EmptyString, s3)
              | EmptyString => Some (EmptyString, s3)
              end in
            match exp with
            | None => None
            | Some (ex, s4) => Some (sign ++ int ++ fr ++ ex, s4)
            end
        end
      else None
  | EmptyString => None
  end.

Fixpoint digits_val (s : string) (acc : Z) : Z :=
  match s with
  | EmptyString => acc
  | String c r => digits_val r (acc * 10 + (byte_val c - 48))
  end.

(** The magnitude of a number literal as [m * 10 ^ e]. *)
Definition number_parts (lit : string) : Z * Z :=
  let s1 := match lit with String "-" r => r | _ => lit end in
  let '(int, s2) := take_digits s1 in
  let '(fr, s3) :=
    match s2 with
    | String "." r2 => take_digits r2
    | _ => (EmptyString, s2)
    end in
  let e :=
    match s3 with
    | String _ (String "-" r) => - digits_val (fst (take_digits r)) 0
    | String _ (String "+" r) => digits_val (fst (take_digits r)) 0
    | String _ r => digits_val (fst (take_digits r)) 0
    | EmptyString => 0
    end in
  (digits_val (int ++ fr) 0, e - Z.of_nat (String.length fr)).

(** [strconv.ParseFloat(lit, 64)] reports a range error when the number
    rounds to an infinity, that is from [2^1024 - 2^970] on. *)
Definition float64_overflows (lit : string) : bool :=
  let '(m, e) := number_parts lit in
  let lim := 2 ^ 1024 - 2 ^ 970 in
  if 0 <=? e then lim <=? m * 10 ^ e else lim * 10 ^ (- e) <=? m.

(** *** Values *)

Definition is_space (c : ascii) : bool :=
  let b := byte_val c in (b =? 32) || (b =? 9) || (b =? 13) || (b =? 10).

Fixpoint skip_ws (s : string) : string :=
  match s with
  | String c r => if is_space c then skip_ws r else s
  | EmptyString => s
  end.

(** [s] without the prefix [p], when it starts with it. *)
Fixpoint strip_prefix (p s : string) : option string :=
  match p, s with
  | EmptyString, _ => Some s
  | String a p', String b s' =>
      if Ascii.eqb a b then strip_prefix p' s' else None
  | _, _ => None
  end.

Definition maxNestingDepth : Z := 10000.

(** The value at the head of [s] and the text after it; [None] for a
    text the scanner rejects, a text that ends inside the value
    included.  [depth] counts the arrays and objects that are open. *)
Fixpoint parse_value (fuel : nat) (depth : Z) (s : string)
  : option (value * string) :=
  match fuel with
  | O => None
  | S f =>
      match skip_ws s with
      | EmptyString => None
      | String c r =>
          let b := byte_val c in
          if b =? 123 then
            if maxNestingDepth <? depth + 1 then None
            else
              match skip_ws r with
              | String c1 r1 =>
                  if byte_val c1 =? 125 then Some (JObj [], r1)
                  else
                    match parse_members f (depth + 1) (skip_ws r) with
                    | Some (fs, rest) => Some (JObj fs, rest)
                    | None => None
                    end
              | EmptyString => None
              end
          else if b =? 91 then
            if maxNestingDepth <? depth + 1 then None
            else
              match skip_ws r with
              | String c1 r1 =>
                  if byte_val c1 =? 93 then Some (JArr [], r1)
                  else
                    match parse_elems f (depth + 1) (skip_ws r) with
                    | Some (l, rest) => Some (JArr l, rest)
                    | None => None
                    end
              | EmptyString => None
              end
          else if b =? 34 then
            match unquote_body None 0 r with
            | Some (str, rest) => Some (JStr str, rest)
            | None => None
            end
          else if b =? 110 then
            option_map (pair JNull) (strip_prefix "null" (String c r))
          else if b =? 116 then
            option_map (pair (JBool true)) (strip_prefix "true" (String c r))
          else if b =? 102 then
            option_map (pair (JBool false)) (strip_prefix "false" (String c r))
          else
            match parse_number (String c r) with
            | Some (lit, rest) => Some (JNum lit, rest)
            | None => None
            end
      end
  end

(** The elements of an array from the first one on, up to the closing
    bracket. *)
with parse_elems (fuel : nat) (depth : Z) (s : string)
  : option (list value * string) :=
  match fuel with
  | O => None
  | S f =>
      match parse_value f depth s with
      | Some (v, rest) =>
          match skip_ws rest with
          | String c r =>
              if byte_val c =? 44 then
                match parse_elems f depth r with
                | Some (l, rest') => Some (v :: l, rest')
                | None => None
                end
              else if byte_val c =? 93 then Some ([v], r)
              else None
          | EmptyString => None
          end
      | None => None
      end
  end

(** The members of an object from the first key on, up to the closing
    brace; [s] starts at the key. *)
with parse_members (fuel : nat) (depth : Z) (s : string)
  : option (list (string * value) * string) :=
  match fuel with
  | O => None
  | S f =>
      match s with
      | String q r =>
          if byte_val q =? 34 then
            match unquote_body None 0 r with
            | Some (k, rest) =>
                match skip_ws rest with
                | String c r1 =>
                    if byte_val c =? 58 then
                      match parse_value f depth r1 with
                      | Some (v, rest1) =>
                          match skip_ws rest1 with
                          | String c2 r2 =>
                              if byte_val c2 =? 44 then
                                match parse_members f depth (skip_ws r2) with
                                | Some (fs, rest') => Some ((k, v) :: fs, rest')
                                | None => None
                                end
                              else if byte_val c2 =? 125 then Some ([(k, v)], r2)
                              else None
                          | EmptyString => None
                          end
                      | None => None
                      end
                    else None
                | EmptyString => None
                end
            | None => None
            end
          else None
      | EmptyString => None
      end
  end.

Definition fuel_for (s : string) : nat := 2 * String.length s + 2.

(** What a [Decoder] reads: the first value of the stream. *)
Definition first_value (s : string) : option value :=
  option_map fst (parse_value (fuel_for s) 0 s).

(** What [Unmarshal] accepts: one value and white space around it. *)
Definition document (s : string) : option value :=
  match parse_value (fuel_for s) 0 s with
  | Some (v, rest) =>
      match skip_ws rest with
      | EmptyString => Some v
      | _ => None
      end
  | None => None
  end.

(** *** Encoding *)

Definition join (sep : string) (l : list string) : string :=
  match l with
  | [] => EmptyString
  | x :: r => fold_left (fun acc y => acc ++ sep ++ y) r x
  end.

(** A Go map holds one value per key and is written with its keys in
    increasing byte order: a later field replaces an earlier one of the
    same key. *)
Fixpoint insert_field {A} (k : string) (v : A) (l : list (string * A))
  : list (string * A) :=
  match l with
  | [] => [(k, v)]
  | (k', v') :: r =>
      if String.eqb k k' then (k, v) :: r
      else if String.ltb k k' then (k, v) :: l
      else (k', v') :: insert_field k v r
  end.

Definition sort_fields {A} (fs : list (string * A)) : list (string * A) :=
  fold_left (fun acc kv => insert_field (fst kv) (snd kv) acc) fs [].

(** [Marshal] of a value built from [nil], [bool], [float64], [string],
    [[]interface{}] and [map[string]interface{}]. *)
Fixpoint Marshal (v : value) : string :=
  match v with
  | JNull => "null"
  | JBool true => "true"
  | JBool false => "false"
  | JNum lit => lit
  | JStr s => quote s
  | JArr l => "[" ++ join "," (map Marshal l) ++ "]"
  | JObj fs =>
      "{" ++ join ","
               (map (fun kt => quote (fst kt) ++ ":" ++ snd kt)
                  (sort_fields
                     (map (fun kv => let '(k, x) := kv in (k, Marshal x)) fs)))
      ++ "}"
  end.

(** *** Decoding into the types of the handlers *)

(** A number that [ParseFloat] rejects makes the decoding into
    [interface{}] report an error. *)
Fixpoint numbers_ok (v : value) : bool :=
  match v with
  | JNum lit => negb (float64_overflows lit)
  | JArr l => forallb numbers_ok l
  | JObj fs => forallb (fun kv => let '(_, x) := kv in numbers_ok x) fs
  | _ => true
  end.

(** [NewDecoder(body).Decode(&m)] for [m] a nil [map[string]interface{}]:
    the map, or [None] when [Decode] returns an error.  [null] leaves
    the map nil, which reads like the empty map. *)
Definition decode_map_interface (body : string) : option (gmap string value) :=
  match first_value body with
  | Some JNull => Some ∅
  | Some (JObj fs) =>
      if forallb (fun kv => numbers_ok (snd kv)) fs
      then Some (list_to_map (reverse fs))
      else None
  | _ => None
  end.

Definition string_member (kv : string * value) : option (string * string) :=
  match snd kv with
  | JStr s => Some (fst kv, s)
  | JNull => Some (fst kv, EmptyString)
  | _ => None
  end.

(** [NewDecoder(body).Decode(&m)] for [m] a nil [map[string]string]: a
    member that is neither a string nor [null] is a type error. *)
Definition decode_map_string (body : string) : option (gmap string string) :=
  match first_value body with
  | Some JNull => Some ∅
  | Some (JObj fs) =>
      match mapM string_member fs with
      | Some l => Some (list_to_map (reverse l))
      | None => None
      end
  | _ => None
  end.

End json.

(** ** The Redis server and its client *)

Module redis.

(** What a key holds.  The handlers create hashes and one sorted set;
    the score of a member is a [float64], and every score the program
    writes is a whole number, which is what the model keeps. *)
Inductive entry :=
| Hash (h : gmap string string)
| ZSet (z : gmap string Z).

Abbreviation DB := (gmap string entry).

(** A command against a key that holds the wrong kind of value. *)
Inductive error := WRONGTYPE.

Inductive result (A : Type) :=
| Ok (a : A)
| Err (e : error).
Arguments Ok {A} a.
Arguments Err {A} e.

(** An argument of a command as the client writes it on the wire. *)
Inductive arg :=
| ArgNil
| ArgString (s : string)
| ArgBytes (s : string)
| ArgInt (n : Z)
| ArgBool (b : bool).

Definition bulk (a : arg) : string :=
  match a with
  | ArgNil => EmptyString
  | ArgString s => s
  | ArgBytes s => s
  | ArgInt n => strconv.FormatInt n
  | ArgBool true => "1"
  | ArgBool false => "0"
  end.

(** [redis.Z]: a member of a sorted set with its score. *)
Record ZItem := { Score : Z; Member : string }.

(** [EXISTS key] *)
Definition Exists (key : string) (db : DB) : Z :=
  match db !! key with
  | Some _ => 1
  | None => 0
  end.

Definition set_fields (fvs : list (string * arg)) (h : gmap string string)
  : gmap string string :=
  fold_left (fun acc fv => <[fst fv := bulk (snd fv)]> acc) fvs h.

(** [HMSET key field value ...]: sets the fields, creating the hash. *)
Definition HMSet (key : string) (fvs : list (string * arg)) (db : DB)
  : result DB :=
  match db !! key with
  | None => Ok (<[key := Hash (set_fields fvs ∅)]> db)
  | Some (Hash h) => Ok (<[key := Hash (set_fields fvs h)]> db)
  | Some (ZSet _) => Err WRONGTYPE
  end.

(** [HGETALL key]: no field for a key that does not exist. *)
Definition HGetAll (key : string) (db : DB) : result (gmap string string) :=
  match db !! key with
  | None => Ok ∅
  | Some (Hash h) => Ok h
  | Some (ZSet _) => Err WRONGTYPE
  end.

(** [ZADD key score member]: adds the member or replaces its score. *)
Definition ZAdd (key : string) (z : ZItem) (db : DB) : result DB :=
  match db !! key with
  | None => Ok (<[key := ZSet {[Member z := Score z]}]> db)
  | Some (ZSet m) => Ok (<[key := ZSet (<[Member z := Score z]> m)]> db)
  | Some (Hash _) => Err WRONGTYPE
  end.

(** [ZREM key member]: the key goes with its last member. *)
Definition ZRem (key : string) (member : string) (db : DB) : result DB :=
  match db !! key with
  | None => Ok db
  | Some (ZSet m) =>
      let m' := delete member m in
      if decide (m' = ∅) then Ok (delete key db)
      else Ok (<[key := ZSet m']> db)
  | Some (Hash _) => Err WRONGTYPE
  end.

(** A command issued without looking at its result: on an error the key
    space is as it was. *)
Definition dropped (r : result DB) (db : DB) : DB :=
  match r with
  | Ok db' => db'
  | Err _ => db
  end.

(** The order of [ZREVRANGE]: decreasing score, and decreasing member
    (byte by byte) among equal scores. *)
Definition zrev_before (a b : ZItem) : bool :=
  (Score b <? Score a)
  || ((Score a =? Score b) && String.leb (Member b) (Member a)).

Definition zrev_rel (a b : ZItem) : Prop := zrev_before a b = true.

#[global] Instance zrev_rel_dec : RelDecision zrev_rel :=
  fun a b => bool_eq_dec (zrev_before a b) true.

Definition zitems (m : gmap string Z) : list ZItem :=
  (fun kv => {| Score := snd kv; Member := fst kv |}) <$> map_to_list m.

(** [ZREVRANGE key 0 -1 WITHSCORES] *)
Definition ZRevRangeWithScores (key : string) (db : DB)
  : result (list ZItem) :=
  match db !! key with
  | None => Ok []
  | Some (ZSet m) =>
      Ok (merge_sort zrev_rel (zitems m))
  | Some (Hash _) => Err WRONGTYPE
  end.

End redis.

(** ** Package [cardgenerator] *)

Module cardgenerator.

Definition Characters : list string :=
  [ "Cat card 😼";
    "Defuse card 🙅‍♂️";
    "Shuffle card 🔀 ";
    "Exploding kitten card 💣" ].

(** The generator seeded with the clock, as the sequence of 64-bit
    words it hands out. *)
Definition Source := nat -> Z.

Definition Int63 (src : Source) (i : nat) : Z := Z.land (src i) (2 ^ 63 - 1).

Definition Int31 (src : Source) (i : nat) : Z := Z.shiftr (Int63 src i) 32.

(** [Intn(n)] for [n] a power of two below [2^31]: [Int31() & (n-1)]. *)
Definition Intn (src : Source) (i : nat) (n : Z) : Z :=
  Z.land (Int31 src i) (n - 1).

(** One turn of the loop: [randomDeck[i] = Characters[r.Intn(4)]];
    [None] is the panic of an index out of range. *)
Definition draw (src : Source) (deck : option (list string)) (i : nat)
  : option (list string) :=
  match deck with
  | Some d =>
      match Characters !! Z.to_nat (Intn src i 4) with
      | Some c => if decide (i < length d)%nat then Some (<[i := c]> d) else None
      | None => None
      end
  | None => None
  end.

Definition GenerateRandomCards (src : Source) : option (list string) :=
  fold_left (draw src) (seq 0 5) (Some (replicate 5 EmptyString)).

End cardgenerator.

(** ** Package [main] *)

Module backend.

Import json.
Export redis(result, Ok, Err).

(** *** Conversions between [int] and [float64] *)

(** [float64(n)]: [n] rounded to 53 significant bits, ties to even. *)
Definition float64_of_int (n : Z) : Z :=
  let a := Z.abs n in
  let bits := Z.log2 a + 1 in
  if bits <=? 53 then n
  else
    let sh := bits - 53 in
    let q := a / 2 ^ sh in
    let r := a mod 2 ^ sh in
    let half := 2 ^ (sh - 1) in
    let q' := if (half <? r) || ((r =? half) && Z.odd q) then q + 1 else q in
    Z.sgn n * (q' * 2 ^ sh).

(** [int(f)] for a whole [f].  Go leaves the result to the
    implementation when [f] is outside of [int]; the least [int] is what
    amd64 gives. *)
Definition int_of_float64 (f : Z) : Z :=
  if (minInt64 <=? f) && (f <=? maxInt64) then f else minInt64.

(** *** Types *)

Record LeaderboardEntry := { UserName : string; UserScore : Z }.

Record Card := { Name : string; Type_ : string }.

Record GameData := {
  Score : Z;
  GameCards : list Card;
  HasDefuseCard : bool;
  ActiveCard : option Card
}.

(** A [Card] as JSON, by the tags of its fields. *)
Definition card_json (c : Card) : value :=
  JObj [("name", JStr (Name c)); ("type", JStr (Type_ c))].

Definition card_valid (c : Card) : bool :=
  utf8.ValidString (Name c) && utf8.ValidString (Type_ c).

(** *** [json.Unmarshal] into [[]Card] *)

Definition lower (a : ascii) : ascii :=
  let b := byte_val a in
  if (65 <=? b) && (b <=? 90) then byte_of (b + 32) else a.

Fixpoint lower_str (s : string) : string :=
  match s with
  | EmptyString => EmptyString
  | String a r => String (lower a) (lower_str r)
  end.

(** The match of a key with a field name that has no [k] and no [s]:
    equal up to the case of ASCII letters. *)
Definition equal_fold (key name : string) : bool :=
  String.eqb (lower_str key) (lower_str name).

(** One member of an object stored into a [Card]: a string sets the
    field, [null] leaves it, any other value is a type error that leaves
    it too; a key that names no field is skipped. *)
Definition set_card_field (acc : Card * bool) (kv : string * value)
  : Card * bool :=
  let '(c, err) := acc in
  if equal_fold (fst kv) "name" then
    match snd kv with
    | JStr s => ({| Name := s; Type_ := Type_ c |}, err)
    | JNull => acc
    | _ => (c, true)
    end
  else if equal_fold (fst kv) "type" then
    match snd kv with
    | JStr s => ({| Name := Name c; Type_ := s |}, err)
    | JNull => acc
    | _ => (c, true)
    end
  else acc.

Definition zero_card : Card := {| Name := EmptyString; Type_ := EmptyString |}.

Definition decode_card (v : value) : Card * bool :=
  match v with
  | JObj fs => fold_left set_card_field fs (zero_card, false)
  | JNull => (zero_card, false)
  | _ => (zero_card, true)
  end.

(** [json.Unmarshal(data, &cards)] for a nil [cards]: the slice after
    the call and whether an error is returned.  A text that is not valid
    leaves the slice alone; a type error is remembered while the
    decoding goes on. *)
Definition unmarshal_cards (data : string) : list Card * bool :=
  match document data with
  | None => ([], true)
  | Some JNull => ([], false)
  | Some (JArr l) =>
      (map (fun v => fst (decode_card v)) l,
       existsb (fun v => snd (decode_card v)) l)
  | Some _ => ([], true)
  end.

(** *** Responses *)

Inductive Payload :=
| PError (msg : string)
| PLeaderboard (lb : list LeaderboardEntry)
| PGame (gameData : GameData) (leaderboard : list LeaderboardEntry)
| PEcho (userName : string) (hadDefuseCard : bool) (activeCard : string)
    (score : Z) (gameCards : list value).

Record Response := { Status : Z; Written : list Payload }.

Definition StatusOK : Z := 200.
Definition StatusBadRequest : Z := 400.
Definition StatusInternalServerError : Z := 500.

Definition httpError (msg : string) (code : Z) : Response :=
  {| Status := code; Written := [PError msg] |}.

(** How a handler ends: it returns, it panics, or it waits for a
    receiver on [broadcastLeaderboard], a channel without buffer that
    nothing in the program receives from. *)
Inductive Outcome :=
| Returned (r : Response)
| Panicked
| BlockedOnBroadcast (r : Response) (payload : string).

Definition response_of (o : Outcome) : option Response :=
  match o with
  | Returned r => Some r
  | Panicked => None
  | BlockedOnBroadcast r _ => Some r
  end.

Definition entry_json (e : LeaderboardEntry) : value :=
  JObj [("userName", JStr (UserName e));
        ("userScore", JNum (strconv.FormatInt (UserScore e)))].

Definition leaderboard_json (lb : list LeaderboardEntry) : string :=
  Marshal (JArr (map entry_json lb)).

(** *** Handlers *)

Definition getLatestLeaderboard (rdb : redis.DB)
  : result (list LeaderboardEntry) :=
  match redis.ZRevRangeWithScores "leaderboard" rdb with
  | Err e => Err e
  | Ok leaderboard =>
      Ok (fold_left
            (fun formattedLeaderboard z =>
               (formattedLeaderboard
                ++ [{| UserName := redis.Member z;
                       UserScore := int_of_float64 (redis.Score z) |}])%list)
            leaderboard [])
  end.

(** [m[key]] on a [map[string]string]. *)
Definition field (m : gmap string string) (key : string) : string :=
  default EmptyString (m !! key).

(** The decoding of the fields read by [HGetAll]. *)
Definition decodeGameData (gameDataMap : gmap string string) : GameData :=
  {| Score := fst (strconv.Atoi (field gameDataMap "score"));
     GameCards := fst (unmarshal_cards (field gameDataMap "gameCards"));
     HasDefuseCard := fst (strconv.ParseBool (field gameDataMap "hasDefuseCard"));
     ActiveCard :=
       match gameDataMap !! "activeCard" with
       | Some activeCardValue =>
           if String.eqb activeCardValue EmptyString then None
           else Some {| Name := activeCardValue; Type_ := EmptyString |}
       | None => None
       end |}.

(** The branch of [gameHandler] for a new user.  The result of [ZAdd]
    is dropped. *)
Definition initGame (userName : string) (deck : list string) (rdb : redis.DB)
  : result redis.DB :=
  let randomCardsJSON := Marshal (JArr (map JStr deck)) in
  match redis.HMSet userName
          [("score", redis.ArgInt 0);
           ("gameCards", redis.ArgBytes randomCardsJSON);
           ("hasDefuseCard", redis.ArgBool false);
           ("activeCard", redis.ArgNil)] rdb with
  | Err e => Err e
  | Ok rdb1 =>
      Ok (redis.dropped
            (redis.ZAdd "leaderboard"
               {| redis.Score := 0; redis.Member := userName |} rdb1) rdb1)
  end.

(** The rest of [gameHandler]: reading the data of the user. *)
Definition readGame (userName : string) (rdb : redis.DB) : Outcome :=
  match redis.HGetAll userName rdb with
  | Err _ =>
      Returned (httpError "Failed to retrieve user data"
                  StatusInternalServerError)
  | Ok gameDataMap =>
      let gameData := decodeGameData gameDataMap in
      match getLatestLeaderboard rdb with
      | Err _ =>
          Returned (httpError "Failed to retrieve latest leaderboard"
                      StatusInternalServerError)
      | Ok leaderboard =>
          Returned {| Status := StatusOK;
                      Written := [PGame gameData leaderboard] |}
      end
  end.

(** [GET /game?userName=...]; [src] is the random source the deck of a
    new user is drawn from. *)
Definition gameHandler (userName : string) (src : cardgenerator.Source)
    (rdb : redis.DB) : redis.DB * Outcome :=
  let isMember := redis.Exists userName rdb in
  if (isMember =? 0) && negb (String.eqb userName EmptyString) then
    match cardgenerator.GenerateRandomCards src with
    | None => (rdb, Panicked)
    | Some randomCards =>
        match initGame userName randomCards rdb with
        | Err _ =>
            (rdb, Returned (httpError "Failed to initiate game for new user"
                              StatusInternalServerError))
        | Ok rdb' => (rdb', readGame userName rdb')
        end
    end
  else (rdb, readGame userName rdb).

(** [PUT /game] *)
Definition updateGameData (body : string) (rdb : redis.DB)
  : redis.DB * Outcome :=
  match decode_map_interface body with
  | None =>
      (rdb, Returned (httpError "Failed to decode request body"
                        StatusBadRequest))
  | Some requestBody =>
      let userName :=
        match requestBody !! "userName" with
        | Some (JStr s) => s | _ => EmptyString end in
      let hasDefuseCard :=
        match requestBody !! "hasDefuseCard" with
        | Some (JBool b) => b | _ => false end in
      let activeCard :=
        match requestBody !! "activeCard" with
        | Some (JStr s) => s | _ => EmptyString end in
      match requestBody !! "score" with
      | Some (JStr scoreStr) =>
          let score := fst (strconv.Atoi scoreStr) in
          match requestBody !! "gameCards" with
          | Some (JArr gameCards) =>
              let gameCardsStr := Marshal (JArr gameCards) in
              match redis.HMSet userName
                      [("gameCards", redis.ArgString gameCardsStr);
                       ("hasDefuseCard", redis.ArgBool hasDefuseCard);
                       ("activeCard", redis.ArgString activeCard);
                       ("score", redis.ArgInt score)] rdb with
              | Err _ =>
                  (rdb, Returned (httpError "Failed to update game data"
                                    StatusInternalServerError))
              | Ok rdb1 =>
                  let rdb2 :=
                    redis.dropped
                      (redis.ZAdd "leaderboard"
                         {| redis.Score := float64_of_int score;
                            redis.Member := userName |} rdb1) rdb1 in
                  match getLatestLeaderboard rdb2 with
                  | Err _ =>
                      (rdb2,
                       Returned (httpError "Failed to retrieve latest leaderboard"
                                   StatusInternalServerError))
                  | Ok leaderboard =>
                      (rdb2,
                       Returned
                         {| Status := StatusOK;
                            Written :=
                              [PLeaderboard leaderboard;
                               PEcho userName hasDefuseCard activeCard score
                                 gameCards] |})
                  end
              end
          | _ => (rdb, Panicked)
          end
      | _ => (rdb, Panicked)
      end
  end.

(** [DELETE /game] *)
Definition resetGame (body : string) (rdb : redis.DB) : redis.DB * Outcome :=
  match decode_map_string body with
  | None =>
      (rdb, Returned (httpError "Failed to decode request body"
                        StatusBadRequest))
  | Some requestBody =>
      let userName := field requestBody "userName" in
      if String.eqb userName EmptyString then
        (rdb, Returned (httpError "Missing userName in request body"
                          StatusBadRequest))
      else
        match redis.HMSet userName
                [("gameCards", redis.ArgString "[]");
                 ("hasDefuseCard", redis.ArgString "false");
                 ("activeCard", redis.ArgNil);
                 ("score", redis.ArgInt 0)] rdb with
        | Err _ =>
            (rdb, Returned (httpError "Failed to reset game data"
                              StatusInternalServerError))
        | Ok rdb1 =>
            let rdb2 :=
              redis.dropped (redis.ZRem "leaderboard" userName rdb1) rdb1 in
            match getLatestLeaderboard rdb2 with
            | Err _ =>
                (rdb2,
                 Returned (httpError "Failed to retrieve latest leaderboard"
                             StatusInternalServerError))
            | Ok leaderboard =>
                (rdb2,
                 BlockedOnBroadcast
                   {| Status := StatusOK;
                      Written := [PLeaderboard leaderboard] |}
                   (leaderboard_json leaderboard))
            end
        end
  end.

(** *** The WebSocket endpoint *)

Inductive LogLine :=
| LogUpgradeError
| LogEstablished
| LogReadError
| LogReceived (message : string)
| LogFetchError
| LogSerializeError
| LogWriteError.

(** What the handler of one connection has done so far:
    [leaderboardMap] is the tally shared by the connections, [Sent] the
    messages written on the connection, [Closed] whether the deferred
    [conn.Close()] has run. *)
Record ConnState := {
  Log : list LogLine;
  leaderboardMap : gmap string Z;
  Sent : list (Z * string);
  Closed : bool
}.

Definition logLine (l : LogLine) (st : ConnState) : ConnState :=
  {| Log := Log st ++ [l]; leaderboardMap := leaderboardMap st;
     Sent := Sent st; Closed := Closed st |}.

(** One turn of the loop as the surroundings decide it: what
    [ReadMessage] returns, the store at the time of the snapshot, and
    whether [json.Marshal] and [WriteMessage] return an error. *)
Record Turn := {
  read : option (Z * string);
  store : redis.DB;
  marshalErr : bool;
  writeErr : bool
}.

(** [leaderboardMap[userName]++] under the lock. *)
Definition updateLeaderboard (userName : string) (st : ConnState) : ConnState :=
  {| Log := Log st;
     leaderboardMap :=
       <[userName := wrap64 (default 0 (leaderboardMap st !! userName) + 1)]>
         (leaderboardMap st);
     Sent := Sent st; Closed := Closed st |}.

Definition emitLeaderboard (t : Turn) (leaderboard : list LeaderboardEntry)
    (messageType : Z) (st : ConnState) : ConnState :=
  if marshalErr t then logLine LogSerializeError st
  else if writeErr t then logLine LogWriteError st
  else
    {| Log := Log st; leaderboardMap := leaderboardMap st;
       Sent := Sent st ++ [(messageType, leaderboard_json leaderboard)];
       Closed := Closed st |}.

(** The [for] loop of [websocketHandler] over the turns that take
    place.  When they are used up the handler waits in [ReadMessage]. *)
Fixpoint messageLoop (turns : list Turn) (st : ConnState) : ConnState :=
  match turns with
  | [] => st
  | t :: rest =>
      match read t with
      | None =>
          let st1 := logLine LogReadError st in
          {| Log := Log st1; leaderboardMap := leaderboardMap st1;
             Sent := Sent st1; Closed := true |}
      | Some (messageType, message) =>
          let st1 := logLine (LogReceived message) st in
          let st2 := updateLeaderboard message st1 in
          match getLatestLeaderboard (store t) with
          | Err _ => messageLoop rest (logLine LogFetchError st2)
          | Ok leaderboard =>
              messageLoop rest (emitLeaderboard t leaderboard messageType st2)
          end
      end
  end.

Definition websocketHandler (upgraded : bool) (turns : list Turn)
    (st : ConnState) : ConnState :=
  if upgraded then messageLoop turns (logLine LogEstablished st)
  else logLine LogUpgradeError st.

(** The messages the handler has taken from the connection. *)
Definition received (st : ConnState) : list string :=
  omap (fun l => match l with LogReceived m => Some m | _ => None end)
    (Log st).

(** *** Sequences of leaderboard writes *)

(** The two writes the handlers make to the sorted set, each with its
    result dropped: [ZAdd] of a member with a score and [ZRem] of a
    member. *)
Inductive LeaderboardWrite :=
| Upsert (userName : string) (score : Z)
| Remove (userName : string).

Definition write (rdb : redis.DB) (w : LeaderboardWrite) : redis.DB :=
  match w with
  | Upsert userName score =>
      redis.dropped
        (redis.ZAdd "leaderboard"
           {| redis.Score := score; redis.Member := userName |} rdb) rdb
  | Remove userName =>
      redis.dropped (redis.ZRem "leaderboard" userName rdb) rdb
  end.

(** The members and scores the key [leaderboard] stands for, when it
    does not hold a hash: none when the key does not exist. *)
Definition members (rdb : redis.DB) : option (gmap string Z) :=
  match rdb !! "leaderboard" with
  | None => Some ∅
  | Some (redis.ZSet z) => Some z
  | Some (redis.Hash _) => None
  end.

(** What a write means for the members: the last write of a member
    decides. *)
Definition written (z : gmap string Z) (w : LeaderboardWrite) : gmap string Z :=
  match w with
  | Upsert userName score => <[userName := score]> z
  | Remove userName => delete userName z
  end.

(** *** Scenarios *)

Definition failing_turn : Turn :=
  {| read := Some (1, "alice"); store := ∅;
     marshalErr := false; writeErr := true |}.

Definition good_turn : Turn :=
  {| read := Some (1, "bob"); store := ∅;
     marshalErr := false; writeErr := false |}.

(** The body [{"userName":"bob"}]. *)
Definition reset_body_bob : string :=
  Marshal (JObj [("userName", JStr "bob")]).

Definition card_A : Card := {| Name := "A"; Type_ := "cat" |}.
Definition card_B : Card := {| Name := "B"; Type_ := "defuse" |}.

(** The members of a body of [PUT /game] for bob: score 7, the cards A
    and B, a defuse card. *)
Definition update_members_bob : list (string * value) :=
  [("userName", JStr "bob"); ("score", JStr "7");
   ("gameCards", JArr (map card_json [card_A; card_B]));
   ("hasDefuseCard", JBool true)].

Definition update_body_bob : string := Marshal (JObj update_members_bob).

Definition fresh_conn : ConnState :=
  {| Log := []; leaderboardMap := ∅; Sent := []; Closed := false |}.

End backend.

Import backend.

(** ** Notions used in the statements and proofs *)

Definition entry_of (z : redis.ZItem) : LeaderboardEntry :=
  {| UserName := redis.Member z; UserScore := int_of_float64 (redis.Score z) |}.

Definition score_ge (a b : redis.ZItem) : Prop := redis.Score b <= redis.Score a.

(** The handlers' writes to the sorted set, seen as [write]. *)
Ltac fold_write :=
  repeat match goal with
  | H : context [redis.dropped
                   (redis.ZAdd "leaderboard"
                      {| redis.Score := ?sc; redis.Member := ?n |} ?d) ?d] |- _ =>
      change (redis.dropped
                (redis.ZAdd "leaderboard" {| redis.Score := sc; redis.Member := n |} d) d)
        with (write d (Upsert n sc)) in H
  | H : context [redis.dropped (redis.ZRem "leaderboard" ?n ?d) ?d] |- _ =>
      change (redis.dropped (redis.ZRem "leaderboard" n d) d)
        with (write d (Remove n)) in H
  | |- context [redis.dropped
                  (redis.ZAdd "leaderboard"
                     {| redis.Score := ?sc; redis.Member := ?n |} ?d) ?d] =>
      change (redis.dropped
                (redis.ZAdd "leaderboard" {| redis.Score := sc; redis.Member := n |} d) d)
        with (write d (Upsert n sc))
  | |- context [redis.dropped (redis.ZRem "leaderboard" ?n ?d) ?d] =>
      change (redis.dropped (redis.ZRem "leaderboard" n d) d)
        with (write d (Remove n))
  end.

Definition seeded (deck : list string) : gmap string string :=
  <["activeCard" := EmptyString]>
    (<["hasDefuseCard" := "0"]>
       (<["gameCards" := json.Marshal (json.JArr (map json.JStr deck))]>
          (<["score" := "0"]> ∅))).

(** A string of decimal digits. *)
Fixpoint all_digits (s : string) : bool :=
  match s with
  | EmptyString => true
  | String c r => strconv.is_digit c && all_digits r
  end.

Ltac ztest :=
  repeat match goal with
  | |- context [?x <? ?y] =>
      let E := fresh "E" in
      destruct (x <? y) eqn:E;
      [apply Z.ltb_lt in E | apply Z.ltb_ge in E]; try lia
  | |- context [?x <=? ?y] =>
      let E := fresh "E" in
      destruct (x <=? y) eqn:E;
      [apply Z.leb_le in E | apply Z.leb_gt in E]; try lia
  | |- context [?x =? ?y] =>
      let E := fresh "E" in
      destruct (x =? y) eqn:E;
      [apply Z.eqb_eq in E | apply Z.eqb_neq in E]; try lia
  end.

(** What the encoder writes for one ASCII byte. *)
Definition ascii_image (a : ascii) : string :=
  if json.html_safe (byte_val a) then String a EmptyString
  else json.escape_ascii (byte_val a).

(** What follows a key in [parse_members]. *)
Definition member_tail (f : nat) (d : Z) (k : string) (after_key : string)
  : option (list (string * json.value) * string) :=
  match json.skip_ws after_key with
  | String c r1 =>
      if byte_val c =? 58 then
        match json.parse_value f d r1 with
        | Some (v, rest1) =>
            match json.skip_ws rest1 with
            | String c2 r2 =>
                if byte_val c2 =? 44 then
                  match json.parse_members f d (json.skip_ws r2) with
                  | Some (fs, rest') => Some ((k, v) :: fs, rest')
                  | None => None
                  end
                else if byte_val c2 =? 125 then Some ([(k, v)], r2)
                else None
            | EmptyString => None
            end
        | None => None
        end
      else None
  | EmptyString => None
  end.

(** The text of a card, as [Marshal] writes it, in front of [rest]. *)
Definition card_text (c : Card) (rest : string) : string :=
  String "{"
    (json.quote "name" ++
     String ":" (json.quote (Name c) ++
     String "," (json.quote "type" ++
     String ":" (json.quote (Type_ c) ++
     String "}" rest)))).

(** The elements of an array of cards, as [Marshal] writes them. *)
Definition cards_text (cards : list Card) : string :=
  json.join "," (map json.Marshal (map card_json cards)).

Definition stored_active (activeCard : string) : option Card :=
  if String.eqb activeCard EmptyString then None
  else Some {| Name := activeCard; Type_ := EmptyString |}.

Definition tally (st : ConnState) (name : string) : Z :=
  default 0 (leaderboardMap st !! name).

(** The name under which [PUT /game] writes: the member [userName] of
    the body when it is a string, the empty name otherwise. *)
Definition put_name (requestBody : gmap string json.value) : string :=
  match requestBody !! "userName" with
  | Some (json.JStr s) => s
  | _ => EmptyString
  end.

(** The fields [PUT /game] writes for a body. *)
Definition put_fields (requestBody : gmap string json.value) (scoreStr : string)
    (gameCards : list json.value) : list (string * redis.arg) :=
  [("gameCards", redis.ArgString (json.Marshal (json.JArr gameCards)));
   ("hasDefuseCard",
    redis.ArgBool match requestBody !! "hasDefuseCard" with
                  | Some (json.JBool b) => b
                  | _ => false
                  end);
   ("activeCard",
    redis.ArgString match requestBody !! "activeCard" with
                    | Some (json.JStr s) => s
                    | _ => EmptyString
                    end);
   ("score", redis.ArgInt (fst (strconv.Atoi scoreStr)))].

(** The fields [DELETE /game] writes. *)
Definition reset_fields : list (string * redis.arg) :=
  [("gameCards", redis.ArgString "[]");
   ("hasDefuseCard", redis.ArgString "false");
   ("activeCard", redis.ArgNil);
   ("score", redis.ArgInt 0)].

(** The elements of an array of strings, as [Marshal] writes them. *)
Definition strings_text (l : list string) : string :=
  json.join "," (map json.quote l).

(** * Properties *)

(** ** The deck generator *)

Lemma Intn_4_range (src : cardgenerator.Source) (i : nat) :
  0 <= cardgenerator.Intn src i 4 <= 3.
Proof.
  unfold cardgenerator.Intn. change (4 - 1) with 3.
  set (x := cardgenerator.Int31 src i).
  split.
  - apply Z.land_nonneg. right. lia.
  - assert (H : Z.land x 3 = x mod 2 ^ 2) by (apply (Z.land_ones x 2); lia).
    rewrite H. pose proof (Z.mod_pos_bound x (2 ^ 2)). lia.
Qed.

Lemma Characters_lookup (src : cardgenerator.Source) (i : nat) :
  exists c, cardgenerator.Characters !! Z.to_nat (cardgenerator.Intn src i 4) = Some c
            /\ In c cardgenerator.Characters.
Proof.
  pose proof (Intn_4_range src i) as H.
  assert (Hc : cardgenerator.Intn src i 4 = 0 \/ cardgenerator.Intn src i 4 = 1 \/
               cardgenerator.Intn src i 4 = 2 \/ cardgenerator.Intn src i 4 = 3) by lia.
  destruct Hc as [-> | [-> | [-> | ->]]]; eexists; (split; [reflexivity |]);
    simpl; auto.
Qed.

Lemma draw_some (src : cardgenerator.Source) (d : list string) (i : nat) :
  (i < length d)%nat ->
  exists c, In c cardgenerator.Characters /\
            cardgenerator.draw src (Some d) i = Some (<[i := c]> d).
Proof.
  intros Hi. destruct (Characters_lookup src i) as (c & Hc & Hin).
  exists c. split; [exact Hin |].
  unfold cardgenerator.draw. rewrite Hc.
  destruct (decide (i < length d)%nat); [reflexivity | contradiction].
Qed.

Lemma GenerateRandomCards_shape (src : cardgenerator.Source) :
  exists c0 c1 c2 c3 c4,
    cardgenerator.GenerateRandomCards src = Some [c0; c1; c2; c3; c4]
    /\ Forall (fun c => In c cardgenerator.Characters) [c0; c1; c2; c3; c4].
Proof.
  unfold cardgenerator.GenerateRandomCards.
  change (seq 0 5) with [0; 1; 2; 3; 4]%nat.
  set (e := EmptyString).
  change (replicate 5 e) with [e; e; e; e; e].
  unfold fold_left.
  destruct (draw_some src [e; e; e; e; e] 0) as (c0 & H0 & ->);
    [cbn [length]; lia |].
  change (<[0%nat := c0]> [e; e; e; e; e]) with [c0; e; e; e; e].
  destruct (draw_some src [c0; e; e; e; e] 1) as (c1 & H1 & ->);
    [cbn [length]; lia |].
  change (<[1%nat := c1]> [c0; e; e; e; e]) with [c0; c1; e; e; e].
  destruct (draw_some src [c0; c1; e; e; e] 2) as (c2 & H2 & ->);
    [cbn [length]; lia |].
  change (<[2%nat := c2]> [c0; c1; e; e; e]) with [c0; c1; c2; e; e].
  destruct (draw_some src [c0; c1; c2; e; e] 3) as (c3 & H3 & ->);
    [cbn [length]; lia |].
  change (<[3%nat := c3]> [c0; c1; c2; e; e]) with [c0; c1; c2; c3; e].
  destruct (draw_some src [c0; c1; c2; c3; e] 4) as (c4 & H4 & ->);
    [cbn [length]; lia |].
  change (<[4%nat := c4]> [c0; c1; c2; c3; e]) with [c0; c1; c2; c3; c4].
  exists c0, c1, c2, c3, c4. split; [reflexivity |].
  repeat (constructor; [assumption |]). constructor.
Qed.

(** C9.  Whatever the random source hands out, [GenerateRandomCards]
    returns (it does not panic on an index) a deck of exactly 5 entries,
    each of them one of the 4 entries of the catalog [Characters], whose
    entries are the four literals of the source, byte for byte. *)
Theorem GenerateRandomCards_five_from_catalog (src : cardgenerator.Source) :
  exists deck,
    cardgenerator.GenerateRandomCards src = Some deck
    /\ length deck = 5%nat
    /\ Forall (fun c => In c cardgenerator.Characters) deck
    /\ length cardgenerator.Characters = 4%nat
    /\ cardgenerator.Characters =
         [ "Cat card 😼"; "Defuse card 🙅‍♂️"; "Shuffle card 🔀 ";
           "Exploding kitten card 💣" ]
    /\ map String.length cardgenerator.Characters = [13; 25; 18; 26]%nat.
Proof.
  destruct (GenerateRandomCards_shape src) as (c0 & c1 & c2 & c3 & c4 & Hd & Hf).
  exists [c0; c1; c2; c3; c4]. repeat split; assumption || reflexivity.
Qed.

(** ** The store *)

Section store_lemmas.

Context (key : string) (db db' : redis.DB).

Lemma HMSet_Ok_inv (fvs : list (string * redis.arg)) :
  redis.HMSet key fvs db = Ok db' ->
  exists h,
    (db !! key = None /\ h = ∅ \/ db !! key = Some (redis.Hash h))
    /\ db' = <[key := redis.Hash (redis.set_fields fvs h)]> db.
Proof.
  unfold redis.HMSet. destruct (db !! key) as [[h | z] |] eqn:E; intros H;
    inversion H; subst.
  - exists h. auto.
  - exists ∅. auto.
Qed.

Lemma HMSet_Err_inv (fvs : list (string * redis.arg)) (e : redis.error) :
  redis.HMSet key fvs db = Err e -> exists z, db !! key = Some (redis.ZSet z).
Proof.
  unfold redis.HMSet. destruct (db !! key) as [[h | z] |]; intros H;
    inversion H. eauto.
Qed.

Lemma ZAdd_Ok_inv (z : redis.ZItem) :
  redis.ZAdd key z db = Ok db' ->
  exists m,
    (db !! key = None /\ m = ∅ \/ db !! key = Some (redis.ZSet m))
    /\ db' = <[key := redis.ZSet (<[redis.Member z := redis.Score z]> m)]> db.
Proof.
  unfold redis.ZAdd. destruct (db !! key) as [[h | m] |] eqn:E; intros H;
    inversion H; subst.
  - exists m. auto.
  - exists ∅. split; [auto |]. reflexivity.
Qed.

Lemma ZAdd_Err_inv (z : redis.ZItem) (e : redis.error) :
  redis.ZAdd key z db = Err e -> exists h, db !! key = Some (redis.Hash h).
Proof.
  unfold redis.ZAdd. destruct (db !! key) as [[h | m] |]; intros H;
    inversion H. eauto.
Qed.

End store_lemmas.

Lemma Exists_present (key : string) (db : redis.DB) (v : redis.entry) :
  db !! key = Some v -> redis.Exists key db = 1.
Proof. unfold redis.Exists. intros ->. reflexivity. Qed.

Lemma Exists_absent (key : string) (db : redis.DB) :
  db !! key = None -> redis.Exists key db = 0.
Proof. unfold redis.Exists. intros ->. reflexivity. Qed.

(** After the branch for a new user the key of the user holds a hash. *)
Lemma initGame_key (userName : string) (deck : list string) (rdb rdb' : redis.DB) :
  initGame userName deck rdb = Ok rdb' -> exists h, rdb' !! userName = Some (redis.Hash h).
Proof.
  unfold initGame.
  destruct (redis.HMSet userName _ rdb) as [rdb1 | e] eqn:EH; [| discriminate].
  apply HMSet_Ok_inv in EH. destruct EH as (h & _ & ->).
  match goal with |- context [redis.ZAdd ?k ?z ?d] =>
    destruct (redis.ZAdd k z d) as [rdb2 | e] eqn:EZ end;
    cbn [redis.dropped]; intros H; inversion H; subst.
  - apply ZAdd_Ok_inv in EZ. destruct EZ as (m & Hm & ->).
    destruct (decide ("leaderboard" = userName)) as [<- | Hne].
    + rewrite lookup_insert_eq in Hm. destruct Hm as [[Hm _] | Hm]; discriminate.
    + rewrite lookup_insert_ne by exact Hne. rewrite lookup_insert_eq. eauto.
  - rewrite lookup_insert_eq. eauto.
Qed.

(** A call for a name that is empty or whose key exists writes nothing. *)
Lemma gameHandler_known (userName : string) (src : cardgenerator.Source)
    (rdb : redis.DB) :
  (redis.Exists userName rdb =? 0) && negb (String.eqb userName EmptyString) = false ->
  gameHandler userName src rdb = (rdb, readGame userName rdb).
Proof. intros H. unfold gameHandler. rewrite H. reflexivity. Qed.

(** After a call the name is empty or its key exists. *)
Lemma gameHandler_then_known (userName : string) (src : cardgenerator.Source)
    (rdb : redis.DB) :
  let rdb' := fst (gameHandler userName src rdb) in
  (redis.Exists userName rdb' =? 0) && negb (String.eqb userName EmptyString) = false.
Proof.
  cbv zeta. unfold gameHandler.
  destruct ((redis.Exists userName rdb =? 0) && negb (String.eqb userName EmptyString))
    eqn:Enew; [| exact Enew].
  destruct (GenerateRandomCards_shape src) as (c0 & c1 & c2 & c3 & c4 & -> & _).
  destruct (initGame userName [c0; c1; c2; c3; c4] rdb) as [rdb' | e] eqn:Ei.
  - cbn [fst]. apply initGame_key in Ei. destruct Ei as (h & Hh).
    rewrite (Exists_present _ _ _ Hh). reflexivity.
  - exfalso. unfold initGame in Ei.
    destruct (redis.HMSet userName _ rdb) as [rdb1 | e'] eqn:EH.
    + discriminate.
    + apply HMSet_Err_inv in EH. destruct EH as (z & Hz).
      rewrite (Exists_present _ _ _ Hz) in Enew. discriminate.
Qed.

(** C4.  The initialisation of [GET /game] is idempotent: whatever the
    name, the random sources and the store, the store after a second call
    is the store after the first one.  The second call finds the key (or
    an empty name) and writes nothing: no second deck, and the score keeps
    its value. *)
Theorem gameHandler_init_idempotent
    (userName : string) (src1 src2 : cardgenerator.Source) (rdb : redis.DB) :
  fst (gameHandler userName src2 (fst (gameHandler userName src1 rdb)))
  = fst (gameHandler userName src1 rdb).
Proof.
  rewrite (gameHandler_known userName src2 _ (gameHandler_then_known userName src1 rdb)).
  reflexivity.
Qed.

(** C10.  A body that decodes (so no 400 is answered) and in which
    [score] is missing or is no string, or [gameCards] is missing or is no
    array, makes [PUT /game] panic in its type assertion; nothing has
    been written to the store by then. *)
Theorem updateGameData_unchecked_assertion_panics
    (body : string) (requestBody : gmap string json.value) (rdb : redis.DB) :
  json.decode_map_interface body = Some requestBody ->
  (forall s, requestBody !! "score" <> Some (json.JStr s))
  \/ (forall l, requestBody !! "gameCards" <> Some (json.JArr l)) ->
  updateGameData body rdb = (rdb, Panicked).
Proof.
  intros Hd Hbad. unfold updateGameData. rewrite Hd.
  destruct (requestBody !! "score") as [[| | | s | |] |] eqn:Es; try reflexivity.
  destruct (requestBody !! "gameCards") as [[| | | | l |] |] eqn:Ec; try reflexivity.
  destruct Hbad as [Hbad | Hbad]; [destruct (Hbad s) | destruct (Hbad l)];
    reflexivity.
Qed.

Lemma updateGameData_unchecked_assertion_panics_witness :
  json.decode_map_interface "{}" = Some ∅
  /\ updateGameData "{}" ∅ = (∅, Panicked).
Proof.
  split; [vm_compute; reflexivity |].
  apply (updateGameData_unchecked_assertion_panics "{}" ∅ ∅).
  - vm_compute; reflexivity.
  - left. intros s. rewrite lookup_empty. discriminate.
Defined.

(** C7.  [DELETE /game] with a body that decodes and whose [userName] is
    empty or missing answers 400 (missing user name) and leaves the store
    as it was: no field is written and nobody is removed from the
    leaderboard. *)
Theorem resetGame_requires_userName
    (body : string) (requestBody : gmap string string) (rdb : redis.DB) :
  json.decode_map_string body = Some requestBody ->
  field requestBody "userName" = EmptyString ->
  resetGame body rdb
  = (rdb, Returned (httpError "Missing userName in request body" StatusBadRequest))
  /\ Status (httpError "Missing userName in request body" StatusBadRequest) = 400.
Proof.
  intros Hd Hu. unfold resetGame. rewrite Hd, Hu. split; reflexivity.
Qed.

Lemma resetGame_requires_userName_witness :
  resetGame "{}" ∅
  = (∅, Returned (httpError "Missing userName in request body" StatusBadRequest))
  /\ Status (httpError "Missing userName in request body" StatusBadRequest) = 400.
Proof.
  apply (resetGame_requires_userName "{}" ∅ ∅); vm_compute; reflexivity.
Defined.

(** ** Reading the stored fields *)

Lemma Atoi_error_value (s : string) :
  (snd (strconv.Atoi s) = Some strconv.ErrSyntax -> fst (strconv.Atoi s) = 0)
  /\ (snd (strconv.Atoi s) = Some strconv.ErrRange ->
      fst (strconv.Atoi s) = maxInt64 \/ fst (strconv.Atoi s) = minInt64).
Proof.
  unfold strconv.Atoi, strconv.ParseInt.
  destruct s as [| c r]; [split; [reflexivity | discriminate] |].
  destruct (strconv.ParseUint _) as [un [[] |]];
    [split; [reflexivity | discriminate] | |];
    (destruct (negb (Ascii.eqb c "-") && (2 ^ 63 <=? un));
     [split; [discriminate | intros _; left; reflexivity] |];
     destruct (Ascii.eqb c "-" && (2 ^ 63 <? un));
     [split; [discriminate | intros _; right; reflexivity] |];
     split; discriminate).
Qed.

Lemma ParseBool_error_value (s : string) :
  snd (strconv.ParseBool s) <> None -> fst (strconv.ParseBool s) = false.
Proof.
  unfold strconv.ParseBool.
  destruct (existsb _ _); [intros H; destruct H; reflexivity |].
  destruct (existsb _ _); reflexivity.
Qed.




(** ** The WebSocket loop *)

Lemma messageLoop_Closed (turns : list Turn) (st : ConnState) :
  Closed (messageLoop turns st)
  = Closed st || existsb (fun t => bool_decide (read t = None)) turns.
Proof.
  revert st. induction turns as [| t rest IH]; intros st; cbn [messageLoop existsb].
  - rewrite orb_false_r. reflexivity.
  - destruct (read t) as [[messageType message] |] eqn:Er.
    + rewrite bool_decide_eq_false_2 by discriminate. cbn [orb].
      destruct (getLatestLeaderboard (store t)) as [lb | e]; rewrite IH.
      * unfold emitLeaderboard.
        destruct (marshalErr t); [reflexivity |].
        destruct (writeErr t); reflexivity.
      * reflexivity.
    + cbn [Closed]. rewrite bool_decide_eq_true_2 by reflexivity.
      rewrite orb_true_r. reflexivity.
Qed.

(** C3 (as the code has it).  When the snapshot was taken and either its
    serialisation or the write on the connection fails, the error is
    logged and the loop goes on with the next turn: the failure does not
    close the connection, which is closed exactly when a read fails. *)
Theorem emitLeaderboard_failure_logged_loop_goes_on
    (t : Turn) (rest : list Turn) (st : ConnState)
    (messageType : Z) (message : string) (leaderboard : list LeaderboardEntry) :
  read t = Some (messageType, message) ->
  getLatestLeaderboard (store t) = Ok leaderboard ->
  marshalErr t = true \/ writeErr t = true ->
  let st' := updateLeaderboard message (logLine (LogReceived message) st) in
  (exists l, (l = LogSerializeError \/ l = LogWriteError)
     /\ messageLoop (t :: rest) st = messageLoop rest (logLine l st')
     /\ Sent (logLine l st') = Sent st
     /\ Closed (logLine l st') = Closed st)
  /\ Closed (messageLoop (t :: rest) st)
     = Closed st || existsb (fun t' => bool_decide (read t' = None)) rest.
Proof.
  intros Hr Hl Hf. cbv zeta. split.
  - cbn [messageLoop]. rewrite Hr, Hl. unfold emitLeaderboard.
    destruct (marshalErr t) eqn:Em.
    + exists LogSerializeError. repeat split. left. reflexivity.
    + destruct Hf as [Hf | Hf]; [discriminate |]. rewrite Hf.
      exists LogWriteError. repeat split. right. reflexivity.
  - rewrite messageLoop_Closed. cbn [existsb]. rewrite Hr.
    rewrite bool_decide_eq_false_2 by discriminate. reflexivity.
Qed.

Lemma emitLeaderboard_failure_logged_loop_goes_on_witness :
  Closed (messageLoop [failing_turn; good_turn] fresh_conn) = false.
Proof.
  exact (proj2 (emitLeaderboard_failure_logged_loop_goes_on
                  failing_turn [good_turn] fresh_conn 1 "alice" []
                  eq_refl eq_refl (or_intror eq_refl))).
Defined.

(** C3 as it is stated fails on the code: after a write that fails the
    handler reads and serves the next message, and the connection stays
    open. *)
Lemma write_failure_does_not_end_loop :
  let st := websocketHandler true [failing_turn; good_turn] fresh_conn in
  Log st = [LogEstablished; LogReceived "alice"; LogWriteError; LogReceived "bob"]
  /\ received st = ["alice"; "bob"]
  /\ Sent st = [(1, "[]")]
  /\ Closed st = false.
Proof. vm_compute. repeat split. Qed.

(** ** The leaderboard snapshot *)

Lemma fold_left_snoc_map {A B} (f : A -> B) (l : list A) (init : list B) :
  fold_left (fun acc x => (acc ++ [f x])%list) l init = (init ++ map f l)%list.
Proof.
  revert init. induction l as [| x l IH]; intros init; cbn.
  - rewrite app_nil_r. reflexivity.
  - rewrite IH, <- app_assoc. reflexivity.
Qed.

Lemma getLatestLeaderboard_map (rdb : redis.DB) :
  getLatestLeaderboard rdb
  = match redis.ZRevRangeWithScores "leaderboard" rdb with
    | Ok items => Ok (map entry_of items)
    | Err e => Err e
    end.
Proof.
  unfold getLatestLeaderboard.
  destruct (redis.ZRevRangeWithScores "leaderboard" rdb); [| reflexivity].
  f_equal. apply (fold_left_snoc_map entry_of a []).
Qed.

#[local] Instance zrev_rel_total : Total redis.zrev_rel.
Proof.
  intros a b. unfold redis.zrev_rel, redis.zrev_before.
  destruct (Z.lt_trichotomy (redis.Score a) (redis.Score b)) as [H | [H | H]].
  - right. apply orb_true_iff. left. apply Z.ltb_lt. exact H.
  - destruct (String.leb_total (redis.Member a) (redis.Member b)) as [L | L].
    + right. apply orb_true_iff. right. apply andb_true_iff. split.
      * apply Z.eqb_eq. symmetry. exact H.
      * exact L.
    + left. apply orb_true_iff. right. apply andb_true_iff. split.
      * apply Z.eqb_eq. exact H.
      * exact L.
  - left. apply orb_true_iff. left. apply Z.ltb_lt. exact H.
Qed.

Lemma zrev_rel_score (a b : redis.ZItem) :
  redis.zrev_rel a b -> redis.Score b <= redis.Score a.
Proof.
  unfold redis.zrev_rel, redis.zrev_before. intros H.
  apply orb_true_iff in H. destruct H as [H | H].
  - apply Z.ltb_lt in H. lia.
  - apply andb_true_iff in H. destruct H as [H _]. apply Z.eqb_eq in H. lia.
Qed.

Lemma Sorted_weaken {A} (R R' : A -> A -> Prop) (l : list A) :
  (forall x y, R x y -> R' x y) -> Sorted R l -> Sorted R' l.
Proof.
  intros HR. induction 1 as [| x l Hs IH Hh]; constructor.
  - exact IH.
  - destruct Hh; constructor. auto.
Qed.

Lemma StronglySorted_lookup_lt {A} (R : A -> A -> Prop) (l : list A)
    (i j : nat) (a b : A) :
  StronglySorted R l -> (i < j)%nat -> l !! i = Some a -> l !! j = Some b -> R a b.
Proof.
  intros Hs. revert i j. induction Hs as [| x l Hs IH Hall]; intros i j Hij Hi Hj.
  - rewrite lookup_nil in Hi. discriminate.
  - destruct j as [| j]; [lia |]. cbn in Hj. destruct i as [| i].
    + cbn in Hi. inversion Hi; subst.
      rewrite List.Forall_forall in Hall. apply Hall.
      apply list_elem_of_In. apply list_elem_of_lookup. eauto.
    + cbn in Hi. apply (IH i j); [lia | assumption | assumption].
Qed.

#[local] Instance score_ge_trans : Transitive score_ge.
Proof. unfold score_ge. intros a b c. lia. Qed.

(** The reply of [ZREVRANGE 0 -1 WITHSCORES] on a sorted set: every member
    once, with its score, in the order of decreasing scores. *)
Lemma ZRevRange_spec (z : gmap string Z) :
  let items := merge_sort redis.zrev_rel (redis.zitems z) in
  NoDup (redis.Member <$> items)
  /\ (forall n sc, {| redis.Score := sc; redis.Member := n |} ∈ items <-> z !! n = Some sc)
  /\ StronglySorted score_ge items.
Proof.
  cbv zeta.
  pose proof (merge_sort_Permutation redis.zrev_rel (redis.zitems z)) as Hp.
  split; [| split].
  - rewrite Hp. unfold redis.zitems. rewrite <- list_fmap_compose.
    apply (NoDup_fst_map_to_list z).
  - intros n sc. rewrite Hp. unfold redis.zitems. rewrite list_elem_of_fmap.
    split.
    + intros ([k v] & E & Hin). inversion E; subst.
      apply elem_of_map_to_list in Hin. exact Hin.
    + intros H. exists (n, sc). split; [reflexivity |].
      apply elem_of_map_to_list. exact H.
  - apply Sorted.Sorted_StronglySorted; [exact score_ge_trans |].
    apply (Sorted_weaken redis.zrev_rel); [apply zrev_rel_score |].
    apply Sorted_merge_sort. apply _.
Qed.

Lemma members_ZRevRange (rdb : redis.DB) (z : gmap string Z) :
  members rdb = Some z ->
  redis.ZRevRangeWithScores "leaderboard" rdb
  = Ok (merge_sort redis.zrev_rel (redis.zitems z)).
Proof.
  unfold members, redis.ZRevRangeWithScores.
  destruct (rdb !! "leaderboard") as [[h | m] |]; intros H; inversion H; subst.
  - reflexivity.
  - unfold redis.zitems. rewrite map_to_list_empty. reflexivity.
Qed.

(** A write to the sorted set, its result dropped, does to the members
    what [written] says, as long as the key holds no hash. *)
Lemma write_members (rdb : redis.DB) (z : gmap string Z) (w : LeaderboardWrite) :
  members rdb = Some z -> members (write rdb w) = Some (written z w).
Proof.
  unfold members. intros H. destruct w as [n sc | n]; cbn [write written].
  - unfold redis.ZAdd.
    destruct (rdb !! "leaderboard") as [[h | m] |]; inversion H; subst;
      cbn [redis.dropped redis.Member redis.Score]; rewrite lookup_insert_eq;
      reflexivity.
  - unfold redis.ZRem.
    destruct (rdb !! "leaderboard") as [[h | m] |] eqn:E; inversion H; subst.
    + destruct (decide (delete n z = ∅)) as [He | He]; cbn [redis.dropped].
      * rewrite lookup_delete_eq, He. reflexivity.
      * rewrite lookup_insert_eq. reflexivity.
    + cbn [redis.dropped]. rewrite E, delete_empty. reflexivity.
Qed.

Lemma writes_members (ws : list LeaderboardWrite) (rdb : redis.DB) (z : gmap string Z) :
  members rdb = Some z ->
  members (fold_left write ws rdb) = Some (fold_left written ws z).
Proof.
  revert rdb z. induction ws as [| w ws IH]; intros rdb z H; cbn [fold_left].
  - exact H.
  - apply IH. apply write_members. exact H.
Qed.

Lemma int_of_float64_in_range (f : Z) :
  minInt64 <= f <= maxInt64 -> int_of_float64 f = f.
Proof.
  intros H. unfold int_of_float64.
  destruct (minInt64 <=? f) eqn:E1; [| apply Z.leb_gt in E1; lia].
  destruct (f <=? maxInt64) eqn:E2; [reflexivity | apply Z.leb_gt in E2; lia].
Qed.

(** The snapshot of a store whose leaderboard stands for the members [z]. *)
Lemma snapshot_of_members (rdb : redis.DB) (z : gmap string Z) :
  members rdb = Some z ->
  exists items,
    getLatestLeaderboard rdb = Ok (map entry_of items)
    /\ NoDup (redis.Member <$> items)
    /\ (forall n sc, {| redis.Score := sc; redis.Member := n |} ∈ items <-> z !! n = Some sc)
    /\ StronglySorted score_ge items.
Proof.
  intros H. exists (merge_sort redis.zrev_rel (redis.zitems z)).
  rewrite getLatestLeaderboard_map, (members_ZRevRange _ _ H).
  split; [reflexivity |]. apply ZRevRange_spec.
Qed.

Lemma UserName_entry_of (items : list redis.ZItem) :
  UserName <$> map entry_of items = redis.Member <$> items.
Proof. induction items as [| x l IH]; cbn; [reflexivity | f_equal; exact IH]. Qed.

Lemma item_eta (it : redis.ZItem) :
  it = {| redis.Score := redis.Score it; redis.Member := redis.Member it |}.
Proof. destruct it. reflexivity. Qed.

(** C1 (as the code has it).  After any sequence of upserts and removals
    on a store whose key [leaderboard] holds no hash, the snapshot
    succeeds and has exactly one entry for every member that the writes
    leave, with the score written last for it (converted to [int]); a
    member with a greater stored score comes before one with a smaller
    score, so a lower score never puts a member above a higher one; and
    when the scores are within [int] the entries are in non-increasing
    order of [UserScore] and carry the stored scores unchanged.  Equal
    scores are allowed next to each other. *)
Theorem getLatestLeaderboard_descending
    (ws : list LeaderboardWrite) (rdb : redis.DB) (z : gmap string Z) :
  members rdb = Some z ->
  let rdb' := fold_left write ws rdb in
  let z' := fold_left written ws z in
  exists lb,
    getLatestLeaderboard rdb' = Ok lb
    /\ NoDup (UserName <$> lb)
    /\ (forall n, n ∈ UserName <$> lb <-> is_Some (z' !! n))
    /\ (forall e, e ∈ lb ->
          exists sc, z' !! UserName e = Some sc /\ UserScore e = int_of_float64 sc)
    /\ (forall i j a b sa sb,
          lb !! i = Some a -> lb !! j = Some b ->
          z' !! UserName a = Some sa -> z' !! UserName b = Some sb ->
          sb < sa -> (i < j)%nat)
    /\ ((forall n sc, z' !! n = Some sc -> minInt64 <= sc <= maxInt64) ->
        StronglySorted (fun a b => UserScore b <= UserScore a) lb
        /\ forall n sc, {| UserName := n; UserScore := sc |} ∈ lb <-> z' !! n = Some sc).
Proof.
  intros Hm. cbv zeta.
  pose proof (writes_members ws rdb z Hm) as Hm'.
  set (rdb' := fold_left write ws rdb) in *.
  set (z' := fold_left written ws z) in *.
  destruct (snapshot_of_members rdb' z' Hm') as (items & Hlb & Hnd & Hin & Hs).
  exists (map entry_of items). split; [exact Hlb |].
  assert (Hitem : forall it, it ∈ items -> z' !! redis.Member it = Some (redis.Score it)).
  { intros it Hit. apply Hin. rewrite <- item_eta. exact Hit. }
  split; [rewrite UserName_entry_of; exact Hnd |].
  split.
  { intros n. rewrite UserName_entry_of, list_elem_of_fmap. split.
    - intros (it & -> & Hit). rewrite (Hitem it Hit). eauto.
    - intros [sc Hsc]. apply Hin in Hsc. eexists. split; [| exact Hsc]. reflexivity. }
  split.
  { intros e He. change (map entry_of items) with (entry_of <$> items) in He.
    apply list_elem_of_fmap in He. destruct He as (it & -> & Hit).
    exists (redis.Score it). split; [apply Hitem; exact Hit | reflexivity]. }
  split.
  { intros i j a b sa sb Hi Hj Ha Hb Hlt.
    change (map entry_of items) with (entry_of <$> items) in Hi, Hj.
    rewrite list_lookup_fmap in Hi, Hj.
    destruct (items !! i) as [ia |] eqn:Ei; [| discriminate].
    destruct (items !! j) as [ib |] eqn:Ej; [| discriminate].
    cbn in Hi, Hj. inversion Hi; subst a. inversion Hj; subst b. cbn in Ha, Hb.
    assert (Hia : ia ∈ items) by (apply list_elem_of_lookup; eauto).
    assert (Hib : ib ∈ items) by (apply list_elem_of_lookup; eauto).
    rewrite (Hitem ia Hia) in Ha. rewrite (Hitem ib Hib) in Hb.
    inversion Ha; subst sa. inversion Hb; subst sb.
    destruct (lt_eq_lt_dec i j) as [[Hlt' | Heq] | Hgt]; [exact Hlt' | |].
    - subst j. rewrite Ei in Ej. inversion Ej; subst. lia.
    - pose proof (StronglySorted_lookup_lt score_ge items j i ib ia Hs Hgt Ej Ei) as Hge.
      unfold score_ge in Hge. lia. }
  intros Hrange.
  assert (Hconv : forall it, it ∈ items -> UserScore (entry_of it) = redis.Score it).
  { intros it Hit. cbn. apply int_of_float64_in_range.
    apply (Hrange (redis.Member it)). apply Hitem. exact Hit. }
  split.
  - clear Hlb Hnd Hin Hitem. induction Hs as [| x l Hs IH Hall].
    + constructor.
    + cbn [map]. constructor.
      * apply IH. intros it Hit. apply Hconv. right. exact Hit.
      * rewrite List.Forall_forall in Hall. apply List.Forall_forall.
        intros e He. apply in_map_iff in He. destruct He as (it & <- & Hit).
        rewrite (Hconv x) by left. rewrite (Hconv it) by (right; apply list_elem_of_In; exact Hit).
        apply Hall. exact Hit.
  - intros n sc. change (map entry_of items) with (entry_of <$> items).
    rewrite list_elem_of_fmap. split.
    + intros (it & E & Hit). inversion E; subst.
      rewrite int_of_float64_in_range
        by (apply (Hrange (redis.Member it)); apply Hitem; exact Hit).
      apply Hitem. exact Hit.
    + intros Hsc. exists {| redis.Score := sc; redis.Member := n |}. split.
      * unfold entry_of. cbn. rewrite int_of_float64_in_range; [reflexivity |].
        apply (Hrange n). exact Hsc.
      * apply Hin. exact Hsc.
Qed.

Lemma getLatestLeaderboard_descending_witness :
  exists lb,
    getLatestLeaderboard
      (fold_left write [Upsert "ann" 3; Upsert "bob" 7; Upsert "ann" 9; Remove "bob";
                        Upsert "cy" 4] ∅) = Ok lb
    /\ lb = [ {| UserName := "ann"; UserScore := 9 |};
              {| UserName := "cy"; UserScore := 4 |} ].
Proof.
  assert (Hm : members (∅ : redis.DB) = Some (∅ : gmap string Z))
    by (vm_compute; reflexivity).
  destruct (getLatestLeaderboard_descending
              [Upsert "ann" 3; Upsert "bob" 7; Upsert "ann" 9; Remove "bob";
               Upsert "cy" 4] _ _ Hm) as (lb & H & _).
  exists lb. split; [exact H |].
  vm_compute in H. inversion H. reflexivity.
Defined.

(** C1 as it is stated fails on the code: two members with the same
    score, as two new players have, stand next to each other in the
    snapshot, which is then not in strictly descending order. *)
Lemma snapshot_with_equal_scores :
  getLatestLeaderboard (fold_left write [Upsert "a" 0; Upsert "b" 0] ∅)
  = Ok [ {| UserName := "b"; UserScore := 0 |}; {| UserName := "a"; UserScore := 0 |} ]
  /\ ~ (UserScore {| UserName := "a"; UserScore := 0 |}
        < UserScore {| UserName := "b"; UserScore := 0 |}).
Proof. split; [vm_compute; reflexivity | cbn; lia]. Qed.

(** ** Snapshots and the members of the leaderboard *)

Lemma getLatestLeaderboard_Ok_members (rdb : redis.DB) (lb : list LeaderboardEntry) :
  getLatestLeaderboard rdb = Ok lb -> exists z, members rdb = Some z.
Proof.
  rewrite getLatestLeaderboard_map. unfold redis.ZRevRangeWithScores, members.
  destruct (rdb !! "leaderboard") as [[h | m] |]; intros H;
    [discriminate | eauto | eauto].
Qed.

Lemma members_getLatestLeaderboard (rdb : redis.DB) (z : gmap string Z) :
  members rdb = Some z ->
  exists lb,
    getLatestLeaderboard rdb = Ok lb
    /\ (forall n, n ∈ UserName <$> lb <-> is_Some (z !! n))
    /\ (forall n sc, z !! n = Some sc ->
          {| UserName := n; UserScore := int_of_float64 sc |} ∈ lb).
Proof.
  intros H. destruct (snapshot_of_members rdb z H) as (items & Hlb & _ & Hin & _).
  exists (map entry_of items). split; [exact Hlb |]. split.
  - intros n. rewrite UserName_entry_of, list_elem_of_fmap. split.
    + intros (it & -> & Hit). rewrite (item_eta it) in Hit. apply Hin in Hit.
      rewrite Hit. eauto.
    + intros [sc Hsc]. apply Hin in Hsc. eexists. split; [| exact Hsc]. reflexivity.
  - intros n sc Hsc. apply Hin in Hsc.
    change (map entry_of items) with (entry_of <$> items).
    apply list_elem_of_fmap. eexists. split; [| exact Hsc]. reflexivity.
Qed.

(** A write to the sorted set leaves every other key alone. *)
Lemma write_other_key (rdb : redis.DB) (w : LeaderboardWrite) (key : string) :
  key <> "leaderboard" -> write rdb w !! key = rdb !! key.
Proof.
  intros Hne. destruct w as [n sc | n]; cbn [write].
  - unfold redis.ZAdd. destruct (rdb !! "leaderboard") as [[h | m] |];
      cbn [redis.dropped]; [reflexivity | |]; apply lookup_insert_ne; congruence.
  - unfold redis.ZRem. destruct (rdb !! "leaderboard") as [[h | m] |];
      cbn [redis.dropped]; [reflexivity | | reflexivity].
    destruct (decide (delete n m = ∅)); cbn [redis.dropped].
    + apply lookup_delete_ne. congruence.
    + apply lookup_insert_ne. congruence.
Qed.

(** A write to a sorted set whose key holds a hash changes nothing. *)
Lemma write_on_hash (rdb : redis.DB) (w : LeaderboardWrite) (h : gmap string string) :
  rdb !! "leaderboard" = Some (redis.Hash h) -> write rdb w = rdb.
Proof.
  intros H. destruct w as [n sc | n]; cbn [write];
    unfold redis.ZAdd, redis.ZRem; rewrite H; reflexivity.
Qed.

Lemma members_hash (rdb : redis.DB) (h : gmap string string) :
  rdb !! "leaderboard" = Some (redis.Hash h) -> members rdb = None.
Proof. unfold members. intros ->. reflexivity. Qed.

(** The store after a hash write to [userName] followed by a write to the
    sorted set, when the snapshot taken then succeeds: the name is not the
    key of the sorted set, its key holds the hash, and the members are
    what the write makes of the members before. *)
Lemma hash_then_write (rdb : redis.DB) (userName : string)
    (hv : gmap string string) (w : LeaderboardWrite) (lb : list LeaderboardEntry) :
  let rdb1 := <[userName := redis.Hash hv]> rdb in
  getLatestLeaderboard (write rdb1 w) = Ok lb ->
  userName <> "leaderboard"
  /\ write rdb1 w !! userName = Some (redis.Hash hv)
  /\ exists z, members rdb = Some z /\ members (write rdb1 w) = Some (written z w).
Proof.
  cbv zeta. intros Hlb.
  assert (Hne : userName <> "leaderboard").
  { intros ->.
    assert (Hh : (<["leaderboard" := redis.Hash hv]> rdb) !! "leaderboard"
                 = Some (redis.Hash hv)) by apply lookup_insert_eq.
    rewrite (write_on_hash _ w hv Hh) in Hlb.
    apply getLatestLeaderboard_Ok_members in Hlb. destruct Hlb as [z Hz].
    rewrite (members_hash _ hv Hh) in Hz. discriminate. }
  split; [exact Hne |]. split.
  - rewrite write_other_key by exact Hne. apply lookup_insert_eq.
  - assert (Hsame : members (<[userName := redis.Hash hv]> rdb) = members rdb).
    { unfold members. rewrite lookup_insert_ne by exact Hne. reflexivity. }
    destruct (members rdb) as [z |] eqn:Ez.
    + exists z. split; [reflexivity |]. apply write_members. exact Hsame.
    + exfalso. unfold members in Hsame.
      destruct ((<[userName := redis.Hash hv]> rdb) !! "leaderboard")
        as [[h | m] |] eqn:E; try discriminate.
      rewrite (write_on_hash _ w h E) in Hlb.
      apply getLatestLeaderboard_Ok_members in Hlb. destruct Hlb as [z Hz].
      rewrite (members_hash _ h E) in Hz. discriminate.
Qed.

Lemma readGame_hash (userName : string) (rdb : redis.DB)
    (h : gmap string string) (lb : list LeaderboardEntry) :
  rdb !! userName = Some (redis.Hash h) ->
  getLatestLeaderboard rdb = Ok lb ->
  readGame userName rdb
  = Returned {| Status := StatusOK; Written := [PGame (decodeGameData h) lb] |}.
Proof.
  intros Hh Hlb. unfold readGame, redis.HGetAll. rewrite Hh, Hlb. reflexivity.
Qed.

Lemma gameHandler_hash (userName : string) (src : cardgenerator.Source)
    (rdb : redis.DB) (h : gmap string string) (lb : list LeaderboardEntry) :
  rdb !! userName = Some (redis.Hash h) ->
  getLatestLeaderboard rdb = Ok lb ->
  gameHandler userName src rdb
  = (rdb, Returned {| Status := StatusOK; Written := [PGame (decodeGameData h) lb] |}).
Proof.
  intros Hh Hlb. rewrite gameHandler_known.
  - rewrite (readGame_hash _ _ _ _ Hh Hlb). reflexivity.
  - rewrite (Exists_present _ _ _ Hh). reflexivity.
Qed.

(** ** Reset *)

Lemma decodeGameData_reset (h : gmap string string) :
  decodeGameData
    (redis.set_fields
       [("gameCards", redis.ArgString "[]");
        ("hasDefuseCard", redis.ArgString "false");
        ("activeCard", redis.ArgNil);
        ("score", redis.ArgInt 0)] h)
  = {| Score := 0; GameCards := []; HasDefuseCard := false; ActiveCard := None |}.
Proof.
  unfold decodeGameData, field, redis.set_fields.
  cbn [fold_left fst snd redis.bulk].
  rewrite lookup_insert_eq.
  rewrite (lookup_insert_ne _ "score" "gameCards") by discriminate.
  rewrite (lookup_insert_ne _ "activeCard" "gameCards") by discriminate.
  rewrite (lookup_insert_ne _ "hasDefuseCard" "gameCards") by discriminate.
  rewrite lookup_insert_eq.
  rewrite (lookup_insert_ne _ "score" "hasDefuseCard") by discriminate.
  rewrite (lookup_insert_ne _ "activeCard" "hasDefuseCard") by discriminate.
  rewrite lookup_insert_eq.
  rewrite (lookup_insert_ne _ "score" "activeCard") by discriminate.
  rewrite lookup_insert_eq.
  vm_compute. reflexivity.
Qed.

(** C6.  After a [DELETE /game] that answers 200, [GET /game] for the
    same name writes nothing and returns score 0, no card, no defuse
    card and no active card, and the snapshot has no entry for the name. *)
Theorem resetGame_then_read_is_zero
    (body : string) (requestBody : gmap string string)
    (src : cardgenerator.Source) (rdb rdb' : redis.DB) (o : Outcome) (r : Response) :
  json.decode_map_string body = Some requestBody ->
  resetGame body rdb = (rdb', o) ->
  response_of o = Some r ->
  Status r = StatusOK ->
  let userName := field requestBody "userName" in
  exists lb,
    gameHandler userName src rdb'
    = (rdb',
       Returned
         {| Status := StatusOK;
            Written :=
              [PGame {| Score := 0; GameCards := []; HasDefuseCard := false;
                        ActiveCard := None |} lb] |})
    /\ getLatestLeaderboard rdb' = Ok lb
    /\ userName ∉ UserName <$> lb.
Proof.
  intros Hd Hr Ho Hs. cbv zeta. unfold resetGame in Hr. rewrite Hd in Hr.
  destruct (String.eqb (field requestBody "userName") EmptyString).
  { inversion Hr; subst. cbn in Ho. inversion Ho; subst. discriminate. }
  set (userName := field requestBody "userName") in *.
  destruct (redis.HMSet userName _ rdb) as [rdb1 | e] eqn:EH.
  2:{ inversion Hr; subst. cbn in Ho. inversion Ho; subst. discriminate. }
  apply HMSet_Ok_inv in EH. destruct EH as (h & _ & ->).
  match type of Hr with context [redis.ZRem _ _ ?d] => set (rdb1 := d) in * end.
  fold_write.
  destruct (getLatestLeaderboard (write rdb1 (Remove userName))) as [lb | e] eqn:El.
  2:{ inversion Hr; subst. cbn in Ho. inversion Ho; subst. discriminate. }
  inversion Hr; subst rdb' o. clear Hr Ho Hs.
  destruct (hash_then_write rdb userName _ (Remove userName) lb El)
    as (Hne & Hkey & z & Hz & Hz').
  fold rdb1 in Hkey, Hz'. fold_write.
  exists lb. split; [| split].
  - rewrite (gameHandler_hash userName src _ _ lb Hkey El).
    rewrite decodeGameData_reset. reflexivity.
  - exact El.
  - destruct (members_getLatestLeaderboard _ _ Hz') as (lb' & Hlb' & Hnames & _).
    rewrite El in Hlb'. inversion Hlb'; subst lb'.
    rewrite Hnames. cbn [written]. rewrite lookup_delete_eq.
    intros [x Hx]. discriminate.
Qed.

Lemma resetGame_then_read_is_zero_witness :
  let rdb := fst (gameHandler "bob" (fun _ => 0) ∅) in
  exists lb,
    gameHandler "bob" (fun _ => 0) (fst (resetGame reset_body_bob rdb))
    = (fst (resetGame reset_body_bob rdb),
       Returned
         {| Status := StatusOK;
            Written :=
              [PGame {| Score := 0; GameCards := []; HasDefuseCard := false;
                        ActiveCard := None |} lb] |})
    /\ getLatestLeaderboard (fst (resetGame reset_body_bob rdb)) = Ok lb
    /\ "bob" ∉ UserName <$> lb.
Proof.
  cbv zeta.
  set (rdb := fst (gameHandler "bob" (fun _ => 0) ∅)).
  assert (Hd : json.decode_map_string reset_body_bob = Some {["userName" := "bob"]})
    by (vm_compute; reflexivity).
  assert (Ho : response_of (snd (resetGame reset_body_bob rdb))
               = Some {| Status := StatusOK; Written := [PLeaderboard []] |})
    by (vm_compute; reflexivity).
  exact (resetGame_then_read_is_zero reset_body_bob _ (fun _ => 0) rdb _ _ _
           Hd (surjective_pairing _) Ho eq_refl).
Defined.

(** ** Initialisation *)

Lemma decodeGameData_seeded (deck : list string) :
  Score (decodeGameData (seeded deck)) = 0
  /\ HasDefuseCard (decodeGameData (seeded deck)) = false
  /\ ActiveCard (decodeGameData (seeded deck)) = None.
Proof.
  unfold decodeGameData, field, seeded. cbn [Score HasDefuseCard ActiveCard].
  rewrite lookup_insert_eq.
  rewrite (lookup_insert_ne _ "activeCard" "hasDefuseCard") by discriminate.
  rewrite lookup_insert_eq.
  rewrite (lookup_insert_ne _ "activeCard" "score") by discriminate.
  rewrite (lookup_insert_ne _ "hasDefuseCard" "score") by discriminate.
  rewrite (lookup_insert_ne _ "gameCards" "score") by discriminate.
  rewrite lookup_insert_eq.
  repeat split.
Qed.



(** ** Strings *)

Lemma append_cons (x : ascii) (a b : string) : String x a ++ b = String x (a ++ b).
Proof. reflexivity. Qed.

Lemma append_nil_l (b : string) : EmptyString ++ b = b.
Proof. reflexivity. Qed.

Lemma append_assoc (a b c : string) : (a ++ b) ++ c = a ++ (b ++ c).
Proof.
  induction a as [| x a IH]; [reflexivity |].
  rewrite !append_cons, IH. reflexivity.
Qed.

Lemma append_nil_r (a : string) : a ++ EmptyString = a.
Proof.
  induction a as [| x a IH]; [reflexivity |].
  rewrite append_cons, IH. reflexivity.
Qed.

Lemma length_append (a b : string) :
  String.length (a ++ b) = (String.length a + String.length b)%nat.
Proof.
  induction a as [| x a IH]; [reflexivity |].
  rewrite append_cons. cbn [String.length]. rewrite IH. reflexivity.
Qed.

(** ** Decimal integers: [FormatInt] and [Atoi] *)

Lemma byte_val_of (n : Z) : 0 <= n < 256 -> byte_val (byte_of n) = n.
Proof.
  intros H. unfold byte_val, byte_of.
  rewrite N_ascii_embedding by lia. lia.
Qed.

Lemma byte_of_val (a : ascii) : byte_of (byte_val a) = a.
Proof.
  unfold byte_val, byte_of. rewrite N2Z.id. apply ascii_N_embedding.
Qed.

Lemma byte_val_range (a : ascii) : 0 <= byte_val a < 256.
Proof.
  unfold byte_val. pose proof (N_ascii_bounded a). lia.
Qed.

Lemma is_digit_range (c : ascii) :
  strconv.is_digit c = true -> 0 <= byte_val c - 48 <= 9.
Proof. unfold strconv.is_digit. intros H. apply andb_true_iff in H. lia. Qed.

Lemma digits_val_mono (s : string) (a : Z) :
  all_digits s = true -> 0 <= a -> a <= json.digits_val s a.
Proof.
  revert a. induction s as [| c r IH]; intros a Hd Ha; cbn in *; [lia |].
  apply andb_true_iff in Hd. destruct Hd as [Hc Hr].
  apply is_digit_range in Hc. specialize (IH (a * 10 + (byte_val c - 48)) Hr). lia.
Qed.

Lemma digits_val_snoc (s : string) (c : ascii) (a : Z) :
  json.digits_val (s ++ String c EmptyString) a
  = json.digits_val s a * 10 + (byte_val c - 48).
Proof.
  revert a. induction s as [| d r IH]; intros a; [reflexivity |].
  rewrite append_cons. cbn [json.digits_val]. apply IH.
Qed.

Lemma all_digits_snoc (s : string) (c : ascii) :
  all_digits (s ++ String c EmptyString) = all_digits s && strconv.is_digit c.
Proof.
  induction s as [| d r IH].
  - cbn. apply andb_true_r.
  - change (all_digits (String d r ++ String c EmptyString))
      with (strconv.is_digit d && all_digits (r ++ String c EmptyString)).
    rewrite IH. apply andb_assoc.
Qed.

(** On digits whose value fits, the loop of [ParseUint] computes the
    value and reports no error. *)
Lemma parse_uint_loop_digits (s : string) (a : Z) :
  all_digits s = true -> 0 <= a -> json.digits_val s a <= maxUint64 ->
  strconv.parse_uint_loop s a = (json.digits_val s a, None).
Proof.
  revert a. induction s as [| c r IH]; intros a Hd Ha Hv; cbn in *; [reflexivity |].
  apply andb_true_iff in Hd. destruct Hd as [Hc Hr]. rewrite Hc.
  pose proof (is_digit_range c Hc) as Hrange.
  pose proof (digits_val_mono r (a * 10 + (byte_val c - 48)) Hr ltac:(lia)) as Hm.
  assert (Hcut : maxUint64 / 10 + 1 = 1844674407370955162) by reflexivity.
  assert (Hmax : maxUint64 = 18446744073709551615) by reflexivity.
  destruct (maxUint64 / 10 + 1 <=? a) eqn:E1; [apply Z.leb_le in E1; lia |].
  destruct (maxUint64 <? a * 10 + (byte_val c - 48)) eqn:E2;
    [apply Z.ltb_lt in E2; lia |].
  apply IH; [exact Hr | lia | exact Hv].
Qed.

(** The digits [format_uint] writes. *)
Lemma format_uint_digits (fuel : nat) (n : Z) (acc : string) :
  0 <= n < 10 ^ Z.of_nat fuel -> (0 < fuel)%nat ->
  exists ds c,
    strconv.format_uint fuel n acc = String c ds ++ acc
    /\ all_digits (String c ds) = true
    /\ json.digits_val (String c ds) 0 = n.
Proof.
  revert n acc. induction fuel as [| f IH]; intros n acc Hn Hf; [lia |].
  cbn [strconv.format_uint].
  assert (Hd : 0 <= n mod 10 < 10) by (apply Z.mod_pos_bound; lia).
  assert (Hb : byte_val (byte_of (48 + n mod 10)) = 48 + n mod 10)
    by (apply byte_val_of; lia).
  assert (Hdig : strconv.is_digit (byte_of (48 + n mod 10)) = true).
  { unfold strconv.is_digit. rewrite Hb. apply andb_true_iff. lia. }
  destruct (n <? 10) eqn:E.
  - apply Z.ltb_lt in E. exists EmptyString, (byte_of (48 + n mod 10)).
    split; [reflexivity |]. split.
    + cbn. rewrite Hdig. reflexivity.
    + cbn. rewrite Hb. rewrite Z.mod_small by lia. lia.
  - apply Z.ltb_ge in E.
    destruct f as [| f'].
    { change (10 ^ Z.of_nat 1) with 10 in Hn. lia. }
    destruct (IH (n / 10) (String (byte_of (48 + n mod 10)) acc)) as (ds & c & Heq & Hall & Hval).
    + split; [apply Z.div_pos; lia |].
      apply Z.div_lt_upper_bound; [lia |].
      replace (Z.of_nat (S (S f'))) with (Z.succ (Z.of_nat (S f'))) in Hn by lia.
      rewrite Z.pow_succ_r in Hn by lia. lia.
    + lia.
    + exists (ds ++ String (byte_of (48 + n mod 10)) EmptyString), c.
      split; [| split].
      * rewrite Heq, !append_cons, append_assoc. reflexivity.
      * change (String c (ds ++ String (byte_of (48 + n mod 10)) EmptyString))
          with (String c ds ++ String (byte_of (48 + n mod 10)) EmptyString).
        rewrite all_digits_snoc, Hall, Hdig. reflexivity.
      * change (String c (ds ++ String (byte_of (48 + n mod 10)) EmptyString))
          with (String c ds ++ String (byte_of (48 + n mod 10)) EmptyString).
        rewrite digits_val_snoc, Hval, Hb.
        pose proof (Z.div_mod n 10 ltac:(lia)). lia.
Qed.

Lemma digit_not_sign (c : ascii) :
  strconv.is_digit c = true -> Ascii.eqb c "-" = false /\ Ascii.eqb c "+" = false.
Proof.
  intros H. apply is_digit_range in H.
  split; apply Ascii.eqb_neq; intros ->.
  - change (byte_val "-") with 45 in H. lia.
  - change (byte_val "+") with 43 in H. lia.
Qed.

Lemma ParseInt_minus (r : string) :
  strconv.ParseInt (String "-" r)
  = match strconv.ParseUint r with
    | (_, Some strconv.ErrSyntax) => (0, Some strconv.ErrSyntax)
    | (un, _) =>
        if 2 ^ 63 <? un then (- 2 ^ 63, Some strconv.ErrRange) else (- un, None)
    end.
Proof. reflexivity. Qed.

Lemma ParseInt_digit (c : ascii) (r : string) :
  strconv.is_digit c = true ->
  strconv.ParseInt (String c r)
  = match strconv.ParseUint (String c r) with
    | (_, Some strconv.ErrSyntax) => (0, Some strconv.ErrSyntax)
    | (un, _) =>
        if 2 ^ 63 <=? un then (2 ^ 63 - 1, Some strconv.ErrRange) else (un, None)
    end.
Proof.
  intros Hc. destruct (digit_not_sign c Hc) as [Hm Hp].
  unfold strconv.ParseInt. rewrite Hm, Hp. reflexivity.
Qed.

(** What the client writes for an [int], [Atoi] reads back. *)
Lemma Atoi_FormatInt (n : Z) :
  minInt64 <= n <= maxInt64 -> strconv.Atoi (strconv.FormatInt n) = (n, None).
Proof.
  intros Hn. unfold minInt64, maxInt64 in Hn.
  assert (H20 : 10 ^ Z.of_nat 20 = 100000000000000000000) by reflexivity.
  assert (H63 : 2 ^ 63 = 9223372036854775808) by reflexivity.
  assert (Hmax : maxUint64 = 18446744073709551615) by reflexivity.
  unfold strconv.Atoi, strconv.FormatInt.
  destruct (n <? 0) eqn:E.
  - apply Z.ltb_lt in E.
    destruct (format_uint_digits 20 (- n) EmptyString) as (ds & c & Heq & Hall & Hval);
      [lia | lia |].
    rewrite Heq, append_nil_r, ParseInt_minus.
    change (strconv.ParseUint (String c ds)) with (strconv.parse_uint_loop (String c ds) 0).
    rewrite (parse_uint_loop_digits (String c ds) 0 Hall ltac:(lia) ltac:(lia)).
    rewrite Hval, H63.
    destruct (9223372036854775808 <? - n) eqn:E2; [apply Z.ltb_lt in E2; lia |].
    f_equal. lia.
  - apply Z.ltb_ge in E.
    destruct (format_uint_digits 20 n EmptyString) as (ds & c & Heq & Hall & Hval);
      [lia | lia |].
    rewrite Heq, append_nil_r.
    assert (Hc : strconv.is_digit c = true).
    { cbn [all_digits] in Hall. apply andb_true_iff in Hall. tauto. }
    rewrite (ParseInt_digit c ds Hc).
    change (strconv.ParseUint (String c ds)) with (strconv.parse_uint_loop (String c ds) 0).
    rewrite (parse_uint_loop_digits (String c ds) 0 Hall ltac:(lia) ltac:(lia)).
    rewrite Hval, H63.
    destruct (9223372036854775808 <=? n) eqn:E2; [apply Z.leb_le in E2; lia |].
    reflexivity.
Qed.

(** ** Integers that [float64] holds exactly *)

Lemma float64_of_int_exact (n : Z) :
  - 2 ^ 53 <= n <= 2 ^ 53 -> float64_of_int n = n.
Proof.
  intros H. unfold float64_of_int.
  destruct (Z.eq_dec (Z.abs n) (2 ^ 53)) as [E | E].
  - assert (Hn : n = 2 ^ 53 \/ n = - 2 ^ 53) by lia.
    destruct Hn as [-> | ->]; vm_compute; reflexivity.
  - destruct (Z.eq_dec n 0) as [-> | Hz]; [reflexivity |].
    assert (Hl : Z.log2 (Z.abs n) < 53).
    { apply Z.log2_lt_pow2; lia. }
    destruct (Z.log2 (Z.abs n) + 1 <=? 53) eqn:E1; [reflexivity |].
    apply Z.leb_gt in E1. lia.
Qed.

(** ** UTF-8 *)

Lemma in_range_iff (lo hi b : Z) : utf8.in_range lo hi b = true <-> lo <= b <= hi.
Proof. unfold utf8.in_range. rewrite andb_true_iff, Z.leb_le, Z.leb_le. tauto. Qed.

Lemma is_cont_iff (b : Z) : utf8.is_cont b = true <-> 0x80 <= b <= 0xBF.
Proof. unfold utf8.is_cont. rewrite andb_true_iff, Z.leb_le, Z.leb_le. tauto. Qed.

Lemma EncodeRune_scalar (c : Z) :
  0 <= c <= 0x10FFFF -> c < 0xD800 \/ 0xE000 <= c ->
  utf8.EncodeRune c
  = if c <? 0x80 then String (byte_of c) EmptyString
    else if c <? 0x800 then
      String (byte_of (0xC0 + c / 64))
        (String (byte_of (0x80 + c mod 64)) EmptyString)
    else if c <? 0x10000 then
      String (byte_of (0xE0 + c / 4096))
        (String (byte_of (0x80 + (c / 64) mod 64))
           (String (byte_of (0x80 + c mod 64)) EmptyString))
    else
      String (byte_of (0xF0 + c / 262144))
        (String (byte_of (0x80 + (c / 4096) mod 64))
           (String (byte_of (0x80 + (c / 64) mod 64))
              (String (byte_of (0x80 + c mod 64)) EmptyString))).
Proof.
  intros Hr Hs. unfold utf8.EncodeRune.
  assert (E : (c <? 0) || (0x10FFFF <? c) || utf8.is_surrogate c = false).
  { unfold utf8.is_surrogate.
    destruct (c <? 0) eqn:E1; [apply Z.ltb_lt in E1; lia |].
    destruct (0x10FFFF <? c) eqn:E2; [apply Z.ltb_lt in E2; lia |].
    destruct (0xD800 <=? c) eqn:E3; [| reflexivity].
    destruct (c <? 0xE000) eqn:E4; [| reflexivity].
    apply Z.leb_le in E3. apply Z.ltb_lt in E4. lia. }
  rewrite E. reflexivity.
Qed.

Lemma EncodeRune_2 (a0 a1 : ascii) :
  0xC2 <= byte_val a0 <= 0xDF -> 0x80 <= byte_val a1 <= 0xBF ->
  utf8.EncodeRune ((byte_val a0 - 0xC0) * 64 + (byte_val a1 - 0x80))
  = String a0 (String a1 EmptyString).
Proof.
  intros H0 H1.
  set (c := (byte_val a0 - 0xC0) * 64 + (byte_val a1 - 0x80)).
  assert (Hc : 0x80 <= c < 0x800) by (unfold c; lia).
  assert (Hq : c / 64 = byte_val a0 - 0xC0)
    by (unfold c; symmetry; apply (Z.div_unique _ 64 _ (byte_val a1 - 0x80)); lia).
  assert (Hr : c mod 64 = byte_val a1 - 0x80)
    by (unfold c; symmetry; apply (Z.mod_unique _ 64 (byte_val a0 - 0xC0)); lia).
  rewrite EncodeRune_scalar by lia. ztest.
  rewrite Hq, Hr.
  replace (0xC0 + (byte_val a0 - 0xC0)) with (byte_val a0) by lia.
  replace (0x80 + (byte_val a1 - 0x80)) with (byte_val a1) by lia.
  rewrite !byte_of_val. reflexivity.
Qed.

Lemma EncodeRune_3 (a0 a1 a2 : ascii) :
  0xE0 <= byte_val a0 <= 0xEF ->
  (if byte_val a0 =? 0xE0 then 0xA0 else 0x80) <= byte_val a1
  <= (if byte_val a0 =? 0xED then 0x9F else 0xBF) ->
  0x80 <= byte_val a2 <= 0xBF ->
  utf8.EncodeRune
    (((byte_val a0 - 0xE0) * 64 + (byte_val a1 - 0x80)) * 64 + (byte_val a2 - 0x80))
  = String a0 (String a1 (String a2 EmptyString)).
Proof.
  intros H0 H1 H2.
  set (c := ((byte_val a0 - 0xE0) * 64 + (byte_val a1 - 0x80)) * 64 + (byte_val a2 - 0x80)).
  assert (Hb1 : 0x80 <= byte_val a1 <= 0xBF)
    by (destruct (byte_val a0 =? 0xE0), (byte_val a0 =? 0xED); lia).
  assert (Hc : 0x800 <= c < 0x10000 /\ (c < 0xD800 \/ 0xE000 <= c)).
  { unfold c.
    destruct (byte_val a0 =? 0xE0) eqn:E0; [apply Z.eqb_eq in E0 | apply Z.eqb_neq in E0];
      destruct (byte_val a0 =? 0xED) eqn:E1; [apply Z.eqb_eq in E1 | apply Z.eqb_neq in E1 | apply Z.eqb_eq in E1 | apply Z.eqb_neq in E1];
      lia. }
  assert (Hq2 : c / 64 = (byte_val a0 - 0xE0) * 64 + (byte_val a1 - 0x80))
    by (unfold c; symmetry; apply (Z.div_unique _ 64 _ (byte_val a2 - 0x80)); lia).
  assert (Hr2 : c mod 64 = byte_val a2 - 0x80)
    by (unfold c; symmetry;
        apply (Z.mod_unique _ 64 ((byte_val a0 - 0xE0) * 64 + (byte_val a1 - 0x80))); lia).
  assert (Hq1 : c / 4096 = byte_val a0 - 0xE0).
  { change 4096 with (64 * 64). rewrite <- Z.div_div by lia. rewrite Hq2.
    symmetry. apply (Z.div_unique _ 64 _ (byte_val a1 - 0x80)); lia. }
  assert (Hr1 : (c / 64) mod 64 = byte_val a1 - 0x80)
    by (rewrite Hq2; symmetry; apply (Z.mod_unique _ 64 (byte_val a0 - 0xE0)); lia).
  clearbody c.
  rewrite EncodeRune_scalar by lia. ztest.
  rewrite Hq1, Hr1, Hr2.
  replace (0xE0 + (byte_val a0 - 0xE0)) with (byte_val a0) by lia.
  replace (0x80 + (byte_val a1 - 0x80)) with (byte_val a1) by lia.
  replace (0x80 + (byte_val a2 - 0x80)) with (byte_val a2) by lia.
  rewrite !byte_of_val. reflexivity.
Qed.

Lemma EncodeRune_4 (a0 a1 a2 a3 : ascii) :
  0xF0 <= byte_val a0 <= 0xF4 ->
  (if byte_val a0 =? 0xF0 then 0x90 else 0x80) <= byte_val a1
  <= (if byte_val a0 =? 0xF4 then 0x8F else 0xBF) ->
  0x80 <= byte_val a2 <= 0xBF ->
  0x80 <= byte_val a3 <= 0xBF ->
  utf8.EncodeRune
    ((((byte_val a0 - 0xF0) * 64 + (byte_val a1 - 0x80)) * 64 + (byte_val a2 - 0x80)) * 64
     + (byte_val a3 - 0x80))
  = String a0 (String a1 (String a2 (String a3 EmptyString))).
Proof.
  intros H0 H1 H2 H3.
  set (c := (((byte_val a0 - 0xF0) * 64 + (byte_val a1 - 0x80)) * 64
             + (byte_val a2 - 0x80)) * 64 + (byte_val a3 - 0x80)).
  assert (Hb1 : 0x80 <= byte_val a1 <= 0xBF)
    by (destruct (byte_val a0 =? 0xF0), (byte_val a0 =? 0xF4); lia).
  assert (Hc : 0x10000 <= c <= 0x10FFFF).
  { unfold c.
    destruct (byte_val a0 =? 0xF0) eqn:E0; [apply Z.eqb_eq in E0 | apply Z.eqb_neq in E0];
      destruct (byte_val a0 =? 0xF4) eqn:E1; [apply Z.eqb_eq in E1 | apply Z.eqb_neq in E1 | apply Z.eqb_eq in E1 | apply Z.eqb_neq in E1];
      lia. }
  assert (Hq3 : c / 64 = ((byte_val a0 - 0xF0) * 64 + (byte_val a1 - 0x80)) * 64
                         + (byte_val a2 - 0x80))
    by (unfold c; symmetry; apply (Z.div_unique _ 64 _ (byte_val a3 - 0x80)); lia).
  assert (Hr3 : c mod 64 = byte_val a3 - 0x80)
    by (unfold c; symmetry;
        apply (Z.mod_unique _ 64 (((byte_val a0 - 0xF0) * 64 + (byte_val a1 - 0x80)) * 64
                                  + (byte_val a2 - 0x80))); lia).
  assert (Hq2 : c / 4096 = (byte_val a0 - 0xF0) * 64 + (byte_val a1 - 0x80)).
  { change 4096 with (64 * 64). rewrite <- Z.div_div by lia. rewrite Hq3.
    symmetry. apply (Z.div_unique _ 64 _ (byte_val a2 - 0x80)); lia. }
  assert (Hr2 : (c / 64) mod 64 = byte_val a2 - 0x80)
    by (rewrite Hq3; symmetry;
        apply (Z.mod_unique _ 64 ((byte_val a0 - 0xF0) * 64 + (byte_val a1 - 0x80))); lia).
  assert (Hq1 : c / 262144 = byte_val a0 - 0xF0).
  { change 262144 with (4096 * 64). rewrite <- Z.div_div by lia. rewrite Hq2.
    symmetry. apply (Z.div_unique _ 64 _ (byte_val a1 - 0x80)); lia. }
  assert (Hr1 : (c / 4096) mod 64 = byte_val a1 - 0x80)
    by (rewrite Hq2; symmetry; apply (Z.mod_unique _ 64 (byte_val a0 - 0xF0)); lia).
  clearbody c.
  rewrite EncodeRune_scalar by lia. ztest.
  rewrite Hq1, Hr1, Hr2, Hr3.
  replace (0xF0 + (byte_val a0 - 0xF0)) with (byte_val a0) by lia.
  replace (0x80 + (byte_val a1 - 0x80)) with (byte_val a1) by lia.
  replace (0x80 + (byte_val a2 - 0x80)) with (byte_val a2) by lia.
  replace (0x80 + (byte_val a3 - 0x80)) with (byte_val a3) by lia.
  rewrite !byte_of_val. reflexivity.
Qed.

(** A rune of more than one byte at the head of a string: its bytes [p]
    are what [EncodeRune] writes for it, and they decode to it whatever
    follows. *)
Lemma DecodeRune_multibyte (a0 : ascii) (r0 : string) (c : Z) (size : nat) :
  0x80 <= byte_val a0 ->
  utf8.DecodeRune (String a0 r0) = (c, size) ->
  (c =? utf8.RuneError) && (size =? 1)%nat = false ->
  exists p' r',
    r0 = p' ++ r'
    /\ S (String.length p') = size
    /\ utf8.EncodeRune c = String a0 p'
    /\ 0x80 <= c
    /\ forall t, utf8.DecodeRune (String a0 (p' ++ t)) = (c, size).
Proof.
  intros Hb Hd Hv. unfold utf8.DecodeRune in Hd.
  destruct (byte_val a0 <? 0x80) eqn:E0; [apply Z.ltb_lt in E0; lia |].
  assert (Hbad : forall P : Prop, (utf8.RuneError, 1%nat) = (c, size) -> P).
  { intros P H. inversion H; subst. rewrite Z.eqb_refl in Hv. discriminate. }
  destruct (utf8.in_range 0xC2 0xDF (byte_val a0)) eqn:E2.
  { apply in_range_iff in E2.
    destruct r0 as [| a1 r1]; [apply Hbad; exact Hd |].
    destruct (utf8.is_cont (byte_val a1)) eqn:C1; [| apply Hbad; exact Hd].
    apply is_cont_iff in C1. inversion Hd; subst c size. clear Hd.
    exists (String a1 EmptyString), r1.
    split; [reflexivity |]. split; [reflexivity |].
    split; [apply EncodeRune_2; assumption |]. split; [lia |].
    intros t. unfold utf8.DecodeRune. rewrite E0.
    rewrite (proj2 (in_range_iff _ _ _) E2).
    rewrite append_cons. rewrite (proj2 (is_cont_iff _) C1). reflexivity. }
  destruct (utf8.in_range 0xE0 0xEF (byte_val a0)) eqn:E3.
  { apply in_range_iff in E3.
    destruct r0 as [| a1 [| a2 r2]]; [apply Hbad; exact Hd | apply Hbad; exact Hd |].
    cbv zeta in Hd.
    destruct (utf8.in_range _ _ (byte_val a1)) eqn:C1; [| apply Hbad; exact Hd].
    destruct (utf8.is_cont (byte_val a2)) eqn:C2; [| apply Hbad; exact Hd].
    cbn [andb] in Hd. inversion Hd; subst c size. clear Hd.
    pose proof (proj1 (in_range_iff _ _ _) C1) as C1'.
    pose proof (proj1 (is_cont_iff _) C2) as C2'.
    exists (String a1 (String a2 EmptyString)), r2.
    split; [reflexivity |]. split; [reflexivity |].
    split; [apply EncodeRune_3; assumption |]. split.
    { destruct (byte_val a0 =? 0xE0) eqn:Ee;
        [apply Z.eqb_eq in Ee | apply Z.eqb_neq in Ee];
        destruct (byte_val a0 =? 0xED); lia. }
    intros t. unfold utf8.DecodeRune. rewrite E0, E2.
    rewrite (proj2 (in_range_iff _ _ _) E3).
    rewrite !append_cons. cbv zeta. rewrite C1, C2. reflexivity. }
  destruct (utf8.in_range 0xF0 0xF4 (byte_val a0)) eqn:E4; [| apply Hbad; exact Hd].
  apply in_range_iff in E4.
  destruct r0 as [| a1 [| a2 [| a3 r3]]]; try (apply Hbad; exact Hd).
  cbv zeta in Hd.
  destruct (utf8.in_range _ _ (byte_val a1)) eqn:C1; [| apply Hbad; exact Hd].
  destruct (utf8.is_cont (byte_val a2)) eqn:C2; [| apply Hbad; exact Hd].
  destruct (utf8.is_cont (byte_val a3)) eqn:C3; [| apply Hbad; exact Hd].
  cbn [andb] in Hd. inversion Hd; subst c size. clear Hd.
  pose proof (proj1 (in_range_iff _ _ _) C1) as C1'.
  pose proof (proj1 (is_cont_iff _) C2) as C2'.
  pose proof (proj1 (is_cont_iff _) C3) as C3'.
  exists (String a1 (String a2 (String a3 EmptyString))), r3.
  split; [reflexivity |]. split; [reflexivity |].
  split; [apply EncodeRune_4; assumption |]. split.
  { destruct (byte_val a0 =? 0xF0) eqn:Ee;
      [apply Z.eqb_eq in Ee | apply Z.eqb_neq in Ee];
      destruct (byte_val a0 =? 0xF4); lia. }
  intros t. unfold utf8.DecodeRune. rewrite E0, E2, E3.
  rewrite (proj2 (in_range_iff _ _ _) E4).
  rewrite !append_cons. cbv zeta. rewrite C1, C2, C3. reflexivity.
Qed.

(** ** JSON strings: [quote] and the string literal read back *)

Lemma quote_body_copy (p' r : string) :
  json.quote_body true (String.length p') (p' ++ r) = p' ++ json.quote_body true 0 r.
Proof.
  induction p' as [| a p' IH]; [reflexivity |].
  rewrite !append_cons. cbn [String.length json.quote_body]. rewrite IH. reflexivity.
Qed.

Lemma quote_body_flag (c1 c2 : bool) (s : string) :
  json.quote_body c1 0 s = json.quote_body c2 0 s.
Proof. destruct s; reflexivity. Qed.

Lemma quote_body_drop (p' r : string) :
  json.quote_body false (String.length p') (p' ++ r) = json.quote_body true 0 r.
Proof.
  induction p' as [| a p' IH]; [apply quote_body_flag |].
  rewrite !append_cons. cbn [String.length json.quote_body]. exact IH.
Qed.

Lemma unquote_body_skip (pend : option Z) (p' t : string) :
  json.unquote_body pend (String.length p') (p' ++ t) = json.unquote_body pend 0 t.
Proof.
  induction p' as [| a p' IH]; [reflexivity |].
  rewrite append_cons. cbn [String.length json.unquote_body]. exact IH.
Qed.

Lemma valid_from_skip (p' r : string) :
  utf8.valid_from (String.length p') (p' ++ r) = utf8.valid_from 0 r.
Proof.
  induction p' as [| a p' IH]; [reflexivity |].
  rewrite append_cons. cbn [String.length utf8.valid_from]. exact IH.
Qed.

Lemma quote_body_ascii (a : ascii) (r : string) :
  byte_val a < 0x80 ->
  json.quote_body true 0 (String a r) = ascii_image a ++ json.quote_body true 0 r.
Proof.
  intros H. cbn [json.quote_body]. cbv zeta. unfold ascii_image.
  destruct (byte_val a <? 0x80) eqn:E; [| apply Z.ltb_ge in E; lia].
  destruct (json.html_safe (byte_val a)); reflexivity.
Qed.

Lemma unquote_body_ascii (a : ascii) (t : string) :
  byte_val a < 0x80 ->
  json.unquote_body None 0 (ascii_image a ++ t)
  = json.emit (String a EmptyString) (json.unquote_body None 0 t).
Proof.
  destruct a as [[] [] [] [] [] [] [] []]; intros H;
    first [ exfalso; vm_compute in H; discriminate H | reflexivity ].
Qed.

Lemma unquote_body_rune (a0 : ascii) (p' t : string) (c : Z) :
  0x80 <= byte_val a0 ->
  utf8.DecodeRune (String a0 (p' ++ t)) = (c, S (String.length p')) ->
  utf8.EncodeRune c = String a0 p' ->
  json.unquote_body None 0 (String a0 (p' ++ t))
  = json.emit (String a0 p') (json.unquote_body None 0 t).
Proof.
  intros Hb Hd He. cbn [json.unquote_body]. cbv zeta.
  destruct (byte_val a0 =? 34) eqn:E1; [apply Z.eqb_eq in E1; lia |].
  destruct (byte_val a0 =? 92) eqn:E2; [apply Z.eqb_eq in E2; lia |].
  destruct (byte_val a0 <? 0x20) eqn:E3; [apply Z.ltb_lt in E3; lia |].
  destruct (byte_val a0 <? 0x80) eqn:E4; [apply Z.ltb_lt in E4; lia |].
  rewrite Hd, He. cbn [json.flush]. rewrite append_nil_l.
  replace (S (String.length p') - 1)%nat with (String.length p') by lia.
  rewrite unquote_body_skip. reflexivity.
Qed.

Lemma unquote_body_separator (c : Z) (t : string) :
  c = 0x2028 \/ c = 0x2029 ->
  json.unquote_body None 0
    (String backslash "u202" ++ String (json.hex_digit (c mod 16)) t)
  = json.emit (utf8.EncodeRune c) (json.unquote_body None 0 t).
Proof. intros [-> | ->]; reflexivity. Qed.

Lemma emit_Some (pre out rest : string) :
  json.emit pre (Some (out, rest)) = Some (pre ++ out, rest).
Proof. reflexivity. Qed.

(** A string of valid UTF-8, written by the encoder and read back by the
    decoder, is the same string; the text after the closing quote is left
    for what follows. *)
Lemma unquote_quote_body (n : nat) :
  forall s rest,
    (String.length s <= n)%nat ->
    utf8.valid_from 0 s = true ->
    json.unquote_body None 0 (json.quote_body true 0 s ++ String quote_char rest)
    = Some (s, rest).
Proof.
  induction n as [n IH] using lt_wf_ind. intros s rest Hn Hv.
  destruct s as [| a r]; [reflexivity |].
  cbn [String.length] in Hn.
  destruct (Z_lt_ge_dec (byte_val a) 0x80) as [Hlt | Hge].
  - rewrite (quote_body_ascii a r Hlt), append_assoc, (unquote_body_ascii a _ Hlt).
    assert (Hv' : utf8.valid_from 0 r = true).
    { cbn [utf8.valid_from] in Hv. unfold utf8.DecodeRune in Hv.
      destruct (byte_val a <? 0x80) eqn:E; [| apply Z.ltb_ge in E; lia].
      unfold utf8.RuneError in Hv.
      destruct (byte_val a =? 0xFFFD) eqn:E2; [apply Z.eqb_eq in E2; lia |].
      exact Hv. }
    rewrite (IH (String.length r) ltac:(lia) r rest (le_n _) Hv').
    reflexivity.
  - assert (Hv0 := Hv). cbn [utf8.valid_from] in Hv.
    destruct (utf8.DecodeRune (String a r)) as [c size] eqn:Ed.
    destruct ((c =? utf8.RuneError) && (size =? 1)%nat) eqn:Ebad; [discriminate |].
    destruct (DecodeRune_multibyte a r c size ltac:(lia) Ed Ebad)
      as (p' & r' & -> & Hsize & Henc & Hc & Hdec).
    subst size. replace (S (String.length p') - 1)%nat with (String.length p') in Hv by lia.
    rewrite valid_from_skip in Hv.
    assert (Hlen : (String.length r' < n)%nat).
    { rewrite length_append in Hn. lia. }
    pose proof (IH (String.length r') Hlen r' rest (le_n _) Hv) as IHr.
    cbn [json.quote_body]. cbv zeta.
    destruct (byte_val a <? 0x80) eqn:E; [apply Z.ltb_lt in E; lia |].
    rewrite Ed, Ebad.
    replace (S (String.length p') - 1)%nat with (String.length p') by lia.
    destruct ((c =? 0x2028) || (c =? 0x2029)) eqn:Esep.
    + rewrite quote_body_drop, append_assoc, (append_cons (json.hex_digit (c mod 16))).
      rewrite unquote_body_separator.
      * rewrite IHr, emit_Some, Henc. rewrite append_cons. reflexivity.
      * apply orb_true_iff in Esep. destruct Esep as [H | H]; apply Z.eqb_eq in H; auto.
    + rewrite quote_body_copy, append_cons, append_assoc.
      rewrite (unquote_body_rune a p' _ c ltac:(lia) (Hdec _) Henc).
      rewrite IHr, emit_Some, append_cons. reflexivity.
Qed.

Lemma unquote_quote (s rest : string) :
  utf8.ValidString s = true ->
  exists body, json.quote s ++ rest = String quote_char body
               /\ json.unquote_body None 0 body = Some (s, rest).
Proof.
  intros Hv. exists (json.quote_body true 0 s ++ String quote_char rest). split.
  - unfold json.quote. rewrite append_cons, append_assoc. reflexivity.
  - apply (unquote_quote_body (String.length s)); [lia | exact Hv].
Qed.

(** ** JSON values: the cards written and read back *)

Lemma parse_value_quote (f : nat) (d : Z) (body : string) :
  json.parse_value (S f) d (String quote_char body)
  = match json.unquote_body None 0 body with
    | Some (str, rest) => Some (json.JStr str, rest)
    | None => None
    end.
Proof. reflexivity. Qed.

Lemma parse_value_string (f : nat) (d : Z) (s rest : string) :
  utf8.ValidString s = true ->
  json.parse_value (S f) d (json.quote s ++ rest) = Some (json.JStr s, rest).
Proof.
  intros Hv. destruct (unquote_quote s rest Hv) as (body & -> & Hu).
  rewrite parse_value_quote, Hu. reflexivity.
Qed.

Lemma parse_members_quote (f : nat) (d : Z) (body : string) :
  json.parse_members (S f) d (String quote_char body)
  = match json.unquote_body None 0 body with
    | Some (k, rest) => member_tail f d k rest
    | None => None
    end.
Proof. reflexivity. Qed.

Lemma member_tail_more (f : nat) (d : Z) (k vtext : string) (v : json.value)
    (more : string) :
  json.parse_value f d vtext = Some (v, String "," more) ->
  member_tail f d k (String ":" vtext)
  = match json.parse_members f d (json.skip_ws more) with
    | Some (fs, rest') => Some ((k, v) :: fs, rest')
    | None => None
    end.
Proof.
  intros H. unfold member_tail.
  change (json.skip_ws (String ":" vtext)) with (String ":" vtext).
  change (byte_val ":" =? 58) with true. cbv iota. rewrite H.
  reflexivity.
Qed.

Lemma member_tail_last (f : nat) (d : Z) (k vtext : string) (v : json.value)
    (rest : string) :
  json.parse_value f d vtext = Some (v, String "}" rest) ->
  member_tail f d k (String ":" vtext) = Some ([(k, v)], rest).
Proof.
  intros H. unfold member_tail.
  change (json.skip_ws (String ":" vtext)) with (String ":" vtext).
  change (byte_val ":" =? 58) with true. cbv iota. rewrite H.
  reflexivity.
Qed.

Lemma parse_value_brace (f : nat) (d : Z) (body : string) :
  (json.maxNestingDepth <? d + 1) = false ->
  json.parse_value (S f) d (String "{" (String quote_char body))
  = match json.parse_members f (d + 1) (String quote_char body) with
    | Some (fs, rest) => Some (json.JObj fs, rest)
    | None => None
    end.
Proof.
  intros H. cbn [json.parse_value].
  change (json.skip_ws (String "{" (String quote_char body)))
    with (String "{" (String quote_char body)).
  cbv iota beta zeta. change (byte_val "{" =? 123) with true. cbv iota.
  rewrite H.
  change (json.skip_ws (String quote_char body)) with (String quote_char body).
  cbv iota. change (byte_val quote_char =? 125) with false. cbv iota.
  reflexivity.
Qed.

Lemma Marshal_card (c : Card) (rest : string) :
  json.Marshal (card_json c) ++ rest = card_text c rest.
Proof.
  unfold card_text.
  change (json.Marshal (card_json c))
    with (String "{"
            (((json.quote "name" ++ String ":" (json.quote (Name c)))
              ++ String "," (json.quote "type" ++ String ":" (json.quote (Type_ c))))
             ++ String "}" EmptyString)).
  rewrite append_cons. f_equal.
  repeat (rewrite ?append_assoc, ?(append_cons ":"), ?(append_cons ","), ?(append_cons "}")).
  reflexivity.
Qed.

Lemma quote_head (s rest : string) :
  exists body, json.quote s ++ rest = String quote_char body.
Proof.
  unfold json.quote. rewrite append_cons. eauto.
Qed.

Lemma parse_value_card (f : nat) (d : Z) (c : Card) (rest : string) :
  card_valid c = true ->
  (json.maxNestingDepth <? d + 1) = false ->
  json.parse_value (4 + f) d (card_text c rest) = Some (card_json c, rest).
Proof.
  intros Hv Hd. unfold card_valid in Hv. apply andb_true_iff in Hv.
  destruct Hv as [Hn Ht]. unfold card_text.
  assert (Hk1 : utf8.ValidString "name" = true) by reflexivity.
  assert (Hk2 : utf8.ValidString "type" = true) by reflexivity.
  change (4 + f)%nat with (S (S (S (S f)))).
  destruct (unquote_quote "name" (String ":" (json.quote (Name c) ++
              String "," (json.quote "type" ++
              String ":" (json.quote (Type_ c) ++ String "}" rest)))) Hk1)
    as (body1 & -> & Hu1).
  rewrite (parse_value_brace _ _ _ Hd), parse_members_quote, Hu1.
  rewrite (member_tail_more _ _ _ _ (json.JStr (Name c))
             (json.quote "type" ++ String ":" (json.quote (Type_ c) ++ String "}" rest)))
    by (apply parse_value_string; exact Hn).
  destruct (unquote_quote "type" (String ":" (json.quote (Type_ c) ++ String "}" rest)) Hk2)
    as (body2 & -> & Hu2).
  change (json.skip_ws (String quote_char body2)) with (String quote_char body2).
  rewrite parse_members_quote, Hu2.
  rewrite (member_tail_last _ _ _ _ (json.JStr (Type_ c)) rest)
    by (apply parse_value_string; exact Ht).
  reflexivity.
Qed.

Lemma fold_left_join_app (sep x z : string) (l : list string) :
  fold_left (fun acc y => acc ++ sep ++ y) l (x ++ z)
  = x ++ fold_left (fun acc y => acc ++ sep ++ y) l z.
Proof.
  revert z. induction l as [| y l IH]; intros z; cbn [fold_left]; [reflexivity |].
  rewrite append_assoc. apply IH.
Qed.

Lemma join_cons2 (sep x y : string) (l : list string) :
  json.join sep (x :: y :: l) = x ++ sep ++ json.join sep (y :: l).
Proof.
  unfold json.join. cbn [fold_left].
  rewrite (fold_left_join_app sep x (sep ++ y)).
  rewrite (fold_left_join_app sep sep y). reflexivity.
Qed.

(** What follows [parse_value] in [parse_elems]. *)
Lemma parse_elems_unfold (f : nat) (d : Z) (s : string) :
  json.parse_elems (S f) d s
  = match json.parse_value f d s with
    | Some (v, rest) =>
        match json.skip_ws rest with
        | String c r =>
            if byte_val c =? 44 then
              match json.parse_elems f d r with
              | Some (l, rest') => Some (v :: l, rest')
              | None => None
              end
            else if byte_val c =? 93 then Some ([v], r)
            else None
        | EmptyString => None
        end
    | None => None
    end.
Proof. reflexivity. Qed.

Lemma parse_elems_cards (cards : list Card) :
  forall (c : Card) (f : nat) (d : Z) (rest : string),
    forallb card_valid (c :: cards) = true ->
    (json.maxNestingDepth <? d + 1) = false ->
    json.parse_elems (length (c :: cards) + 4 + f) d
      (cards_text (c :: cards) ++ String "]" rest)
    = Some (map card_json (c :: cards), rest).
Proof.
  induction cards as [| c' cards IH]; intros c f d rest Hv Hd.
  - cbn [forallb] in Hv. apply andb_true_iff in Hv. destruct Hv as [Hc _].
    change (length [c] + 4 + f)%nat with (S (4 + f)).
    rewrite parse_elems_unfold.
    change (cards_text [c]) with (json.Marshal (card_json c)).
    rewrite Marshal_card, (parse_value_card f d c _ Hc Hd).
    reflexivity.
  - assert (Hv0 := Hv). cbn [forallb] in Hv. apply andb_true_iff in Hv.
    destruct Hv as [Hc Hrest].
    change (length (c :: c' :: cards) + 4 + f)%nat
      with (S (length (c' :: cards) + 4 + f)).
    rewrite parse_elems_unfold.
    change (cards_text (c :: c' :: cards))
      with (json.join "," (json.Marshal (card_json c)
                            :: json.Marshal (card_json c')
                            :: map json.Marshal (map card_json cards))).
    rewrite join_cons2, append_assoc, Marshal_card.
    change (json.join "," (json.Marshal (card_json c')
                            :: map json.Marshal (map card_json cards)))
      with (cards_text (c' :: cards)).
    replace (length (c' :: cards) + 4 + f)%nat
      with (4 + (length (c' :: cards) + f))%nat by lia.
    rewrite (parse_value_card _ d c _ Hc Hd).
    change (("," ++ cards_text (c' :: cards)) ++ String "]" rest)
      with (String "," (cards_text (c' :: cards) ++ String "]" rest)).
    change (json.skip_ws (String "," (cards_text (c' :: cards) ++ String "]" rest)))
      with (String "," (cards_text (c' :: cards) ++ String "]" rest)).
    cbv iota. change (byte_val "," =? 44) with true. cbv iota.
    replace (4 + (length (c' :: cards) + f))%nat
      with (length (c' :: cards) + 4 + f)%nat by lia.
    rewrite (IH c' f d rest Hrest Hd). reflexivity.
Qed.

Lemma Marshal_card_length (c : Card) : (1 <= String.length (json.Marshal (card_json c)))%nat.
Proof.
  pose proof (Marshal_card c EmptyString) as H. rewrite append_nil_r in H.
  rewrite H. unfold card_text. cbn [String.length]. lia.
Qed.

Lemma cards_text_length (cards : list Card) :
  (length cards <= String.length (cards_text cards))%nat.
Proof.
  induction cards as [| c [| c' cards] IH].
  - cbn. lia.
  - change (cards_text [c]) with (json.Marshal (card_json c)).
    pose proof (Marshal_card_length c). cbn [length]. lia.
  - change (cards_text (c :: c' :: cards))
      with (json.join "," (json.Marshal (card_json c)
                            :: json.Marshal (card_json c')
                            :: map json.Marshal (map card_json cards))).
    rewrite join_cons2, !length_append.
    change (json.join "," (json.Marshal (card_json c')
                            :: map json.Marshal (map card_json cards)))
      with (cards_text (c' :: cards)).
    pose proof (Marshal_card_length c). cbn [length] in *. lia.
Qed.

Lemma parse_value_bracket_empty (f : nat) (d : Z) (rest : string) :
  (json.maxNestingDepth <? d + 1) = false ->
  json.parse_value (S f) d (String "[" (String "]" rest)) = Some (json.JArr [], rest).
Proof.
  intros H. cbn [json.parse_value].
  change (json.skip_ws (String "[" (String "]" rest))) with (String "[" (String "]" rest)).
  cbv iota beta zeta. change (byte_val "[" =? 123) with false.
  change (byte_val "[" =? 91) with true. cbv iota. rewrite H.
  change (json.skip_ws (String "]" rest)) with (String "]" rest).
  cbv iota. change (byte_val "]" =? 93) with true. reflexivity.
Qed.

Lemma parse_value_bracket (f : nat) (d : Z) (body : string) :
  (json.maxNestingDepth <? d + 1) = false ->
  json.parse_value (S f) d (String "[" (String "{" body))
  = match json.parse_elems f (d + 1) (String "{" body) with
    | Some (l, rest) => Some (json.JArr l, rest)
    | None => None
    end.
Proof.
  intros H. cbn [json.parse_value].
  change (json.skip_ws (String "[" (String "{" body))) with (String "[" (String "{" body)).
  cbv iota beta zeta. change (byte_val "[" =? 123) with false.
  change (byte_val "[" =? 91) with true. cbv iota. rewrite H.
  change (json.skip_ws (String "{" body)) with (String "{" body).
  cbv iota. change (byte_val "{" =? 93) with false. reflexivity.
Qed.

Lemma Marshal_cards (cards : list Card) :
  json.Marshal (json.JArr (map card_json cards))
  = String "[" (cards_text cards ++ String "]" EmptyString).
Proof. reflexivity. Qed.

(** An array of cards written by [Marshal] is a document that reads back
    as the same array. *)
Lemma document_Marshal_cards (cards : list Card) :
  forallb card_valid cards = true ->
  json.document (json.Marshal (json.JArr (map card_json cards)))
  = Some (json.JArr (map card_json cards)).
Proof.
  intros Hv. unfold json.document. rewrite Marshal_cards.
  destruct cards as [| c cards].
  - reflexivity.
  - assert (Hlen : (length (c :: cards) + 4
                    <= json.fuel_for (String "[" (cards_text (c :: cards)
                                                   ++ String "]" EmptyString)) - 1)%nat).
    { unfold json.fuel_for. cbn [String.length]. rewrite length_append.
      pose proof (cards_text_length (c :: cards)). cbn [String.length]. lia. }
    set (text := cards_text (c :: cards) ++ String "]" EmptyString) in *.
    assert (Hhead : exists body, text = String "{" body).
    { unfold text. destruct cards as [| c' cards'].
      - change (cards_text [c]) with (json.Marshal (card_json c)).
        rewrite Marshal_card. unfold card_text. eauto.
      - change (cards_text (c :: c' :: cards'))
          with (json.join "," (json.Marshal (card_json c)
                                :: json.Marshal (card_json c')
                                :: map json.Marshal (map card_json cards'))).
        rewrite join_cons2, append_assoc, Marshal_card. unfold card_text. eauto. }
    destruct Hhead as [body Hbody].
    destruct (json.fuel_for (String "[" text)) as [| F] eqn:EF;
      [unfold json.fuel_for in EF; lia |].
    rewrite Hbody, parse_value_bracket by reflexivity. rewrite <- Hbody.
    replace F with (length (c :: cards) + 4 + (F - (length (c :: cards) + 4)))%nat by lia.
    unfold text. rewrite (parse_elems_cards cards c _ (0 + 1) EmptyString Hv eq_refl).
    reflexivity.
Qed.

Lemma decode_card_json (c : Card) : decode_card (card_json c) = (c, false).
Proof. destruct c. reflexivity. Qed.

(** The cards a handler stores are the cards the next read decodes, in the
    same order and without an error. *)
Lemma unmarshal_Marshal_cards (cards : list Card) :
  forallb card_valid cards = true ->
  unmarshal_cards (json.Marshal (json.JArr (map card_json cards))) = (cards, false).
Proof.
  intros Hv. unfold unmarshal_cards. rewrite (document_Marshal_cards cards Hv).
  f_equal.
  - induction cards as [| c l IH]; [reflexivity |].
    cbn [map]. rewrite decode_card_json. cbn [fst]. f_equal. apply IH.
    cbn [forallb] in Hv. apply andb_true_iff in Hv. tauto.
  - clear Hv. induction cards as [| c l IH]; [reflexivity |].
    cbn [map existsb]. rewrite decode_card_json. exact IH.
Qed.

(** ** Update, then read *)

Lemma decodeGameData_updated (h : gmap string string) (cards : list Card)
    (hasDefuseCard : bool) (activeCard : string) (score : Z) :
  forallb card_valid cards = true ->
  minInt64 <= score <= maxInt64 ->
  decodeGameData
    (redis.set_fields
       [("gameCards", redis.ArgString (json.Marshal (json.JArr (map card_json cards))));
        ("hasDefuseCard", redis.ArgBool hasDefuseCard);
        ("activeCard", redis.ArgString activeCard);
        ("score", redis.ArgInt score)] h)
  = {| Score := score; GameCards := cards; HasDefuseCard := hasDefuseCard;
       ActiveCard := stored_active activeCard |}.
Proof.
  intros Hv Hs. unfold decodeGameData, field, redis.set_fields.
  cbn [fold_left fst snd].
  rewrite lookup_insert_eq.
  rewrite (lookup_insert_ne _ "score" "gameCards") by discriminate.
  rewrite (lookup_insert_ne _ "activeCard" "gameCards") by discriminate.
  rewrite (lookup_insert_ne _ "hasDefuseCard" "gameCards") by discriminate.
  rewrite lookup_insert_eq.
  rewrite (lookup_insert_ne _ "score" "hasDefuseCard") by discriminate.
  rewrite (lookup_insert_ne _ "activeCard" "hasDefuseCard") by discriminate.
  rewrite lookup_insert_eq.
  rewrite (lookup_insert_ne _ "score" "activeCard") by discriminate.
  rewrite lookup_insert_eq.
  cbn [default redis.bulk]. unfold id.
  rewrite (Atoi_FormatInt score Hs), (unmarshal_Marshal_cards cards Hv).
  destruct hasDefuseCard; reflexivity.
Qed.



(** ** More on the WebSocket loop *)

Lemma logLine_map (l : LogLine) (st : ConnState) :
  leaderboardMap (logLine l st) = leaderboardMap st.
Proof. reflexivity. Qed.

Lemma emitLeaderboard_map (t : Turn) (lb : list LeaderboardEntry) (mt : Z)
    (st : ConnState) :
  leaderboardMap (emitLeaderboard t lb mt st) = leaderboardMap st.
Proof.
  unfold emitLeaderboard. destruct (marshalErr t); [reflexivity |].
  destruct (writeErr t); reflexivity.
Qed.

(** What one turn whose read succeeds does to the tally, whatever becomes
    of the snapshot and of the write. *)
Lemma messageLoop_turn_map (t : Turn) (rest : list Turn) (st : ConnState)
    (mt : Z) (message : string) :
  read t = Some (mt, message) ->
  exists st',
    messageLoop (t :: rest) st = messageLoop rest st'
    /\ leaderboardMap st'
       = <[message := wrap64 (tally st message + 1)]> (leaderboardMap st).
Proof.
  intros Hr. cbn [messageLoop]. rewrite Hr.
  destruct (getLatestLeaderboard (store t)) as [lb | e].
  - eexists. split; [reflexivity |]. rewrite emitLeaderboard_map. reflexivity.
  - eexists. split; [reflexivity |]. reflexivity.
Qed.

Lemma wrap64_id (n : Z) : minInt64 <= n <= maxInt64 -> wrap64 n = n.
Proof.
  unfold wrap64, minInt64, maxInt64. intros H.
  rewrite Z.mod_small by lia. lia.
Qed.

(** X1.  [N] frames carrying the same name, read on one connection, raise
    the tally of that name by exactly [N] (as long as the counter stays
    within [int]) and leave the tally of every other name alone, whether
    or not the snapshot could be taken, serialised and written. *)
Theorem messageLoop_tally (turns : list Turn) (name : string) (st : ConnState) :
  Forall (fun t => exists mt, read t = Some (mt, name)) turns ->
  minInt64 <= tally st name ->
  tally st name + Z.of_nat (length turns) <= maxInt64 ->
  tally (messageLoop turns st) name = tally st name + Z.of_nat (length turns)
  /\ forall other, other <> name ->
       leaderboardMap (messageLoop turns st) !! other = leaderboardMap st !! other.
Proof.
  revert st. induction turns as [| t rest IH]; intros st Hall Hlo Hhi.
  - cbn [messageLoop length]. split; [lia | reflexivity].
  - apply Forall_cons in Hall. destruct Hall as [[mt Hr] Hrest].
    destruct (messageLoop_turn_map t rest st mt name Hr) as (st' & -> & Hmap).
    cbn [length] in *.
    assert (Hst' : tally st' name = tally st name + 1).
    { unfold tally at 1. rewrite Hmap, lookup_insert_eq. cbn [default].
      apply wrap64_id. lia. }
    destruct (IH st' Hrest ltac:(lia) ltac:(lia)) as [Ht Ho].
    split; [lia |].
    intros other Hne. rewrite (Ho other Hne), Hmap.
    apply lookup_insert_ne. congruence.
Qed.

Lemma messageLoop_tally_witness :
  tally (messageLoop [good_turn; good_turn] fresh_conn) "bob" = 0 + 2.
Proof.
  apply (proj1 (messageLoop_tally [good_turn; good_turn] "bob" fresh_conn
                  ltac:(repeat constructor; exists 1; reflexivity)
                  ltac:(vm_compute; discriminate)
                  ltac:(vm_compute; discriminate))).
Defined.

(** X2.  A read that fails ends the loop: the error is logged, the
    connection is closed, nothing is sent for that turn, the tally is not
    touched, and whatever the peer would have sent afterwards plays no
    part. *)
Theorem messageLoop_read_error_ends (t : Turn) (rest : list Turn) (st : ConnState) :
  read t = None ->
  messageLoop (t :: rest) st = messageLoop [t] st
  /\ Closed (messageLoop (t :: rest) st) = true
  /\ Log (messageLoop (t :: rest) st) = (Log st ++ [LogReadError])%list
  /\ Sent (messageLoop (t :: rest) st) = Sent st
  /\ leaderboardMap (messageLoop (t :: rest) st) = leaderboardMap st.
Proof.
  intros H. cbn [messageLoop]. rewrite H. repeat split.
Qed.

Lemma messageLoop_read_error_ends_witness :
  let bad := {| read := None; store := ∅; marshalErr := false; writeErr := false |} in
  Closed (messageLoop [bad; good_turn] fresh_conn) = true.
Proof.
  cbv zeta.
  apply (proj1 (proj2 (messageLoop_read_error_ends
                         {| read := None; store := ∅; marshalErr := false;
                            writeErr := false |}
                         [good_turn] fresh_conn eq_refl))).
Defined.

(** X3.  When the snapshot cannot be taken the message is dropped: the
    name has been counted, the error is logged, nothing is written on the
    connection, the connection stays as it was, and the loop goes on with
    the next turn. *)
Theorem messageLoop_fetch_error_drops (t : Turn) (rest : list Turn)
    (st : ConnState) (mt : Z) (message : string) (e : redis.error) :
  read t = Some (mt, message) ->
  getLatestLeaderboard (store t) = Err e ->
  let st' :=
    logLine LogFetchError (updateLeaderboard message (logLine (LogReceived message) st)) in
  messageLoop (t :: rest) st = messageLoop rest st'
  /\ Sent st' = Sent st
  /\ Closed st' = Closed st
  /\ Log st' = (Log st ++ [LogReceived message; LogFetchError])%list
  /\ leaderboardMap st' !! message = Some (wrap64 (tally st message + 1)).
Proof.
  intros Hr He. cbv zeta. cbn [messageLoop]. rewrite Hr, He.
  split; [reflexivity |]. split; [reflexivity |]. split; [reflexivity |]. split.
  - cbn. rewrite <- app_assoc. reflexivity.
  - cbn. apply lookup_insert_eq.
Qed.

Lemma messageLoop_fetch_error_drops_witness :
  let broken : redis.DB := <["leaderboard" := redis.Hash ∅]> ∅ in
  let t := {| read := Some (1, "bob"); store := broken;
              marshalErr := false; writeErr := false |} in
  Sent (messageLoop [t] fresh_conn) = [].
Proof.
  cbv zeta.
  set (t := {| read := Some (1, "bob");
               store := <["leaderboard" := redis.Hash ∅]> ∅;
               marshalErr := false; writeErr := false |}).
  assert (He : getLatestLeaderboard (store t) = Err redis.WRONGTYPE)
    by (vm_compute; reflexivity).
  destruct (messageLoop_fetch_error_drops t [] fresh_conn 1 "bob" _ eq_refl He)
    as (Hl & Hs & _).
  rewrite Hl. exact Hs.
Defined.

(** X4.  Whatever the peer and the store do, every message the handler
    has written on the connection is the JSON text of the snapshot taken
    in one of the turns, sent with the message type of the frame read in
    that turn. *)
Theorem messageLoop_sends_snapshots (turns : list Turn) (st : ConnState)
    (mt : Z) (payload : string) :
  (mt, payload) ∈ Sent (messageLoop turns st) ->
  (mt, payload) ∈ Sent st
  \/ exists t message lb,
       t ∈ turns /\ read t = Some (mt, message)
       /\ getLatestLeaderboard (store t) = Ok lb
       /\ payload = leaderboard_json lb.
Proof.
  revert st. induction turns as [| t rest IH]; intros st Hin.
  - left. exact Hin.
  - cbn [messageLoop] in Hin.
    destruct (read t) as [[mt' message] |] eqn:Er.
    + destruct (getLatestLeaderboard (store t)) as [lb | e] eqn:El.
      * apply IH in Hin. destruct Hin as [Hin | (t' & m & lb' & Ht' & H)].
        -- unfold emitLeaderboard in Hin.
           destruct (marshalErr t); [left; exact Hin |].
           destruct (writeErr t); [left; exact Hin |].
           cbn [Sent] in Hin. apply elem_of_app in Hin.
           destruct Hin as [Hin | Hin]; [left; exact Hin |].
           apply list_elem_of_singleton in Hin. injection Hin as -> ->.
           right. exists t, message, lb. repeat split; try assumption. left.
        -- right. exists t', m, lb'. split; [right; exact Ht' | exact H].
      * apply IH in Hin. destruct Hin as [Hin | (t' & m & lb' & Ht' & H)].
        -- left. exact Hin.
        -- right. exists t', m, lb'. split; [right; exact Ht' | exact H].
    + left. exact Hin.
Qed.

Lemma messageLoop_sends_snapshots_witness :
  (1, "[]") ∈ Sent fresh_conn
  \/ exists t message lb,
       t ∈ [failing_turn; good_turn] /\ read t = Some (1, message)
       /\ getLatestLeaderboard (store t) = Ok lb
       /\ "[]" = leaderboard_json lb.
Proof.
  apply (messageLoop_sends_snapshots [failing_turn; good_turn] fresh_conn 1 "[]").
  vm_compute. left.
Defined.

(** ** What the handlers leave alone *)

Lemma HMSet_other_key (key : string) (fvs : list (string * redis.arg))
    (db db' : redis.DB) (k : string) :
  redis.HMSet key fvs db = Ok db' -> k <> key -> db' !! k = db !! k.
Proof.
  intros H Hne. apply HMSet_Ok_inv in H. destruct H as (h & _ & ->).
  apply lookup_insert_ne. congruence.
Qed.

Lemma updateGameData_store (body : string) (rdb : redis.DB) :
  fst (updateGameData body rdb) = rdb
  \/ exists requestBody scoreStr gameCards rdb1,
       json.decode_map_interface body = Some requestBody
       /\ requestBody !! "score" = Some (json.JStr scoreStr)
       /\ requestBody !! "gameCards" = Some (json.JArr gameCards)
       /\ redis.HMSet (put_name requestBody)
            (put_fields requestBody scoreStr gameCards) rdb = Ok rdb1
       /\ fst (updateGameData body rdb)
          = write rdb1 (Upsert (put_name requestBody)
                          (float64_of_int (fst (strconv.Atoi scoreStr)))).
Proof.
  unfold updateGameData.
  destruct (json.decode_map_interface body) as [requestBody |]; [| left; reflexivity].
  destruct (requestBody !! "score") as [[| | | scoreStr | |] |] eqn:Es;
    try (left; reflexivity).
  destruct (requestBody !! "gameCards") as [[| | | | gameCards |] |] eqn:Ec;
    try (left; reflexivity).
  fold (put_name requestBody).
  destruct (redis.HMSet (put_name requestBody) _ rdb) as [rdb1 | e] eqn:EH;
    [| left; reflexivity].
  right. exists requestBody, scoreStr, gameCards, rdb1.
  split; [reflexivity |]. split; [exact Es |]. split; [exact Ec |].
  split; [exact EH |].
  fold_write.
  destruct (getLatestLeaderboard _); reflexivity.
Qed.

Lemma resetGame_store (body : string) (rdb : redis.DB) :
  fst (resetGame body rdb) = rdb
  \/ exists requestBody rdb1,
       json.decode_map_string body = Some requestBody
       /\ field requestBody "userName" <> EmptyString
       /\ redis.HMSet (field requestBody "userName") reset_fields rdb = Ok rdb1
       /\ fst (resetGame body rdb) = write rdb1 (Remove (field requestBody "userName")).
Proof.
  unfold resetGame.
  destruct (json.decode_map_string body) as [requestBody |]; [| left; reflexivity].
  destruct (String.eqb (field requestBody "userName") EmptyString) eqn:En;
    [left; reflexivity |].
  apply String.eqb_neq in En.
  destruct (redis.HMSet (field requestBody "userName") _ rdb) as [rdb1 | e] eqn:EH;
    [| left; reflexivity].
  right. exists requestBody, rdb1.
  split; [reflexivity |]. split; [exact En |]. split; [exact EH |].
  fold_write.
  destruct (getLatestLeaderboard _); reflexivity.
Qed.

Lemma gameHandler_store (userName : string) (src : cardgenerator.Source)
    (rdb : redis.DB) :
  fst (gameHandler userName src rdb) = rdb
  \/ exists fvs rdb1,
       userName <> EmptyString
       /\ rdb !! userName = None
       /\ redis.HMSet userName fvs rdb = Ok rdb1
       /\ fst (gameHandler userName src rdb) = write rdb1 (Upsert userName 0).
Proof.
  unfold gameHandler.
  destruct ((redis.Exists userName rdb =? 0) && negb (String.eqb userName EmptyString))
    eqn:Enew; [| left; reflexivity].
  apply andb_true_iff in Enew. destruct Enew as [Ee En].
  destruct (cardgenerator.GenerateRandomCards src) as [deck |]; [| left; reflexivity].
  unfold initGame.
  destruct (redis.HMSet userName _ rdb) as [rdb1 | e] eqn:EH; [| left; reflexivity].
  right. eexists. exists rdb1.
  split.
  { intros ->. discriminate. }
  split.
  { unfold redis.Exists in Ee. destruct (rdb !! userName); [discriminate | reflexivity]. }
  split; [exact EH |]. fold_write. reflexivity.
Qed.

(** X5.  No handler touches the data of another player: [GET /game],
    [PUT /game] and [DELETE /game] leave every key alone that is neither
    the key of the name they are called for nor the key of the
    leaderboard, whatever they answer. *)
Theorem handlers_leave_other_players (k : string) (rdb : redis.DB) :
  k <> "leaderboard" ->
  (forall userName src,
      k <> userName -> fst (gameHandler userName src rdb) !! k = rdb !! k)
  /\ (forall body requestBody,
        json.decode_map_interface body = Some requestBody ->
        k <> put_name requestBody ->
        fst (updateGameData body rdb) !! k = rdb !! k)
  /\ (forall body requestBody,
        json.decode_map_string body = Some requestBody ->
        k <> field requestBody "userName" ->
        fst (resetGame body rdb) !! k = rdb !! k).
Proof.
  intros Hlb. split; [| split].
  - intros userName src Hne.
    destruct (gameHandler_store userName src rdb)
      as [-> | (fvs & rdb1 & _ & _ & EH & ->)]; [reflexivity |].
    rewrite write_other_key by exact Hlb.
    apply (HMSet_other_key _ _ _ _ _ EH Hne).
  - intros body requestBody Hd Hne.
    destruct (updateGameData_store body rdb)
      as [-> | (rb & sc & gc & rdb1 & Hd' & _ & _ & EH & ->)]; [reflexivity |].
    rewrite Hd in Hd'. injection Hd' as <-.
    rewrite write_other_key by exact Hlb.
    apply (HMSet_other_key _ _ _ _ _ EH Hne).
  - intros body requestBody Hd Hne.
    destruct (resetGame_store body rdb)
      as [-> | (rb & rdb1 & Hd' & _ & EH & ->)]; [reflexivity |].
    rewrite Hd in Hd'. injection Hd' as <-.
    rewrite write_other_key by exact Hlb.
    apply (HMSet_other_key _ _ _ _ _ EH Hne).
Qed.

Lemma handlers_leave_other_players_witness :
  fst (gameHandler "bob" (fun _ => 0) (fst (gameHandler "ann" (fun _ => 0) ∅))) !! "ann"
  = fst (gameHandler "ann" (fun _ => 0) ∅) !! "ann".
Proof.
  apply (proj1 (handlers_leave_other_players "ann" _ ltac:(discriminate))).
  discriminate.
Defined.

(** X6.  A request that is refused writes nothing: when [PUT /game] or
    [DELETE /game] answers 400 or, for [PUT], ends in a panic, the store
    is as it was before the request. *)
Theorem refused_request_writes_nothing (body : string) (rdb : redis.DB) :
  (forall rdb' o,
      updateGameData body rdb = (rdb', o) ->
      o = Panicked \/ (exists r, o = Returned r /\ Status r = StatusBadRequest) ->
      rdb' = rdb)
  /\ (forall rdb' o,
        resetGame body rdb = (rdb', o) ->
        (exists r, response_of o = Some r /\ Status r = StatusBadRequest) ->
        rdb' = rdb).
Proof.
  split.
  - intros rdb' o H Hbad. unfold updateGameData in H.
    destruct (json.decode_map_interface body) as [requestBody |];
      [| injection H as <- _; reflexivity].
    destruct (requestBody !! "score") as [[| | | scoreStr | |] |];
      try (injection H as <- _; reflexivity).
    destruct (requestBody !! "gameCards") as [[| | | | gameCards |] |];
      try (injection H as <- _; reflexivity).
    destruct (redis.HMSet _ _ rdb) as [rdb1 | e];
      [| injection H as <- _; reflexivity].
    exfalso.
    destruct (getLatestLeaderboard _); injection H as _ <-;
      destruct Hbad as [Hp | (r & Hr & Hs)]; try discriminate;
      injection Hr as <-; vm_compute in Hs; discriminate.
  - intros rdb' o H (r & Hr & Hs). unfold resetGame in H.
    destruct (json.decode_map_string body) as [requestBody |];
      [| injection H as <- _; reflexivity].
    destruct (String.eqb _ _); [injection H as <- _; reflexivity |].
    destruct (redis.HMSet _ _ rdb) as [rdb1 | e];
      [| injection H as <- _; reflexivity].
    exfalso.
    destruct (getLatestLeaderboard _); injection H as _ <-;
      cbn [response_of] in Hr; injection Hr as <-; vm_compute in Hs; discriminate.
Qed.

Lemma refused_request_writes_nothing_witness :
  fst (updateGameData "[]" (fst (gameHandler "ann" (fun _ => 0) ∅)))
  = fst (gameHandler "ann" (fun _ => 0) ∅).
Proof.
  apply (proj1 (refused_request_writes_nothing "[]" _) _ _ (surjective_pairing _)).
  right. eexists. split; [vm_compute; reflexivity | reflexivity].
Defined.

(** ** A player called like the key of the leaderboard *)

Lemma getLatestLeaderboard_hash (rdb : redis.DB) (h : gmap string string) :
  rdb !! "leaderboard" = Some (redis.Hash h) ->
  getLatestLeaderboard rdb = Err redis.WRONGTYPE.
Proof.
  intros H. unfold getLatestLeaderboard, redis.ZRevRangeWithScores. rewrite H.
  reflexivity.
Qed.

Lemma readGame_broken (userName : string) (rdb : redis.DB) (h : gmap string string)
    (r : Response) :
  rdb !! "leaderboard" = Some (redis.Hash h) ->
  response_of (readGame userName rdb) = Some r ->
  Status r = StatusInternalServerError.
Proof.
  intros H Hr. unfold readGame in Hr. rewrite (getLatestLeaderboard_hash _ _ H) in Hr.
  destruct (redis.HGetAll userName rdb); cbn [response_of] in Hr;
    injection Hr as <-; reflexivity.
Qed.

Lemma HMSet_keeps_hash (key : string) (fvs : list (string * redis.arg))
    (db db' : redis.DB) (h : gmap string string) :
  redis.HMSet key fvs db = Ok db' ->
  db !! "leaderboard" = Some (redis.Hash h) ->
  exists h', db' !! "leaderboard" = Some (redis.Hash h').
Proof.
  intros H Hh. apply HMSet_Ok_inv in H. destruct H as (h0 & _ & ->).
  destruct (decide (key = "leaderboard")) as [-> | Hne].
  - rewrite lookup_insert_eq. eauto.
  - rewrite lookup_insert_ne by exact Hne. eauto.
Qed.

(** X7.  The players share the key space with the leaderboard.  On a
    store without the key [leaderboard], [GET /game] for the name
    [leaderboard] stores the hash of a new player under that key, cannot
    add the member, and answers 500 because the snapshot fails on a key
    that holds a hash. *)
Theorem gameHandler_for_leaderboard_key (src : cardgenerator.Source) (rdb : redis.DB) :
  rdb !! "leaderboard" = None ->
  (exists h, fst (gameHandler "leaderboard" src rdb) !! "leaderboard"
             = Some (redis.Hash h))
  /\ snd (gameHandler "leaderboard" src rdb)
     = Returned (httpError "Failed to retrieve latest leaderboard"
                   StatusInternalServerError)
  /\ getLatestLeaderboard (fst (gameHandler "leaderboard" src rdb))
     = Err redis.WRONGTYPE.
Proof.
  intros Hnew. unfold gameHandler. rewrite (Exists_absent _ _ Hnew).
  change ((0 =? 0) && negb (String.eqb "leaderboard" EmptyString)) with true.
  cbv iota.
  destruct (GenerateRandomCards_shape src) as (c0 & c1 & c2 & c3 & c4 & -> & _).
  unfold initGame, redis.HMSet. rewrite Hnew. fold_write.
  match goal with |- context [write ?d _] => set (rdb1 := d) end.
  assert (Hh : rdb1 !! "leaderboard" = Some (redis.Hash (seeded [c0; c1; c2; c3; c4])))
    by apply lookup_insert_eq.
  rewrite (write_on_hash rdb1 _ _ Hh). cbn [fst snd].
  split; [eauto |]. split.
  - unfold readGame, redis.HGetAll. rewrite Hh.
    rewrite (getLatestLeaderboard_hash _ _ Hh). reflexivity.
  - apply (getLatestLeaderboard_hash _ _ Hh).
Qed.

Lemma gameHandler_for_leaderboard_key_witness :
  getLatestLeaderboard (fst (gameHandler "leaderboard" (fun _ => 0) ∅))
  = Err redis.WRONGTYPE.
Proof.
  apply (proj2 (proj2 (gameHandler_for_leaderboard_key (fun _ => 0) ∅
                         ltac:(apply lookup_empty)))).
Defined.

(** X8.  Once the key [leaderboard] holds a hash it keeps holding one
    and no request is answered with 200 any more: every answer of
    [GET /game], [PUT /game] and [DELETE /game] has another status. *)
Theorem broken_leaderboard_stays_broken (rdb : redis.DB) (h : gmap string string) :
  rdb !! "leaderboard" = Some (redis.Hash h) ->
  (forall userName src,
      (exists h', fst (gameHandler userName src rdb) !! "leaderboard"
                  = Some (redis.Hash h'))
      /\ forall r, response_of (snd (gameHandler userName src rdb)) = Some r ->
                   Status r <> StatusOK)
  /\ (forall body,
        (exists h', fst (updateGameData body rdb) !! "leaderboard"
                    = Some (redis.Hash h'))
        /\ forall r, response_of (snd (updateGameData body rdb)) = Some r ->
                     Status r <> StatusOK)
  /\ (forall body,
        (exists h', fst (resetGame body rdb) !! "leaderboard"
                    = Some (redis.Hash h'))
        /\ forall r, response_of (snd (resetGame body rdb)) = Some r ->
                     Status r <> StatusOK).
Proof.
  intros Hh. split; [| split].
  - intros userName src.
    assert (Hkeep : exists h', fst (gameHandler userName src rdb) !! "leaderboard"
                               = Some (redis.Hash h')).
    { destruct (gameHandler_store userName src rdb)
        as [-> | (fvs & rdb1 & _ & _ & EH & ->)]; [eauto |].
      destruct (HMSet_keeps_hash _ _ _ _ _ EH Hh) as [h' Hh'].
      rewrite (write_on_hash _ _ _ Hh'). eauto. }
    split; [exact Hkeep |]. intros r Hr. destruct Hkeep as [h' Hh'].
    unfold gameHandler in *.
    destruct ((redis.Exists userName rdb =? 0) && negb (String.eqb userName EmptyString)).
    + destruct (cardgenerator.GenerateRandomCards src); [| discriminate].
      destruct (initGame userName l rdb); cbn [fst snd] in *.
      * rewrite (readGame_broken _ _ _ _ Hh' Hr). discriminate.
      * cbn [response_of] in Hr. injection Hr as <-. discriminate.
    + cbn [fst snd] in *. rewrite (readGame_broken _ _ _ _ Hh' Hr). discriminate.
  - intros body.
    assert (Hkeep : exists h', fst (updateGameData body rdb) !! "leaderboard"
                               = Some (redis.Hash h')).
    { destruct (updateGameData_store body rdb)
        as [-> | (rb & sc & gc & rdb1 & _ & _ & _ & EH & ->)]; [eauto |].
      destruct (HMSet_keeps_hash _ _ _ _ _ EH Hh) as [h' Hh'].
      rewrite (write_on_hash _ _ _ Hh'). eauto. }
    split; [exact Hkeep |]. intros r Hr. destruct Hkeep as [h' Hh'].
    unfold updateGameData in *.
    destruct (json.decode_map_interface body) as [requestBody |];
      [| cbn [snd response_of] in Hr; injection Hr as <-; discriminate].
    destruct (requestBody !! "score") as [[| | | scoreStr | |] |]; try discriminate.
    destruct (requestBody !! "gameCards") as [[| | | | gameCards |] |]; try discriminate.
    destruct (redis.HMSet _ _ rdb) as [rdb1 | e];
      [| cbn [snd response_of] in Hr; injection Hr as <-; discriminate].
    destruct (getLatestLeaderboard _) as [lb | e] eqn:El.
    + cbn [fst] in Hh'. rewrite (getLatestLeaderboard_hash _ _ Hh') in El. discriminate.
    + cbn [snd response_of] in Hr. injection Hr as <-. discriminate.
  - intros body.
    assert (Hkeep : exists h', fst (resetGame body rdb) !! "leaderboard"
                               = Some (redis.Hash h')).
    { destruct (resetGame_store body rdb)
        as [-> | (rb & rdb1 & _ & _ & EH & ->)]; [eauto |].
      destruct (HMSet_keeps_hash _ _ _ _ _ EH Hh) as [h' Hh'].
      rewrite (write_on_hash _ _ _ Hh'). eauto. }
    split; [exact Hkeep |]. intros r Hr. destruct Hkeep as [h' Hh'].
    unfold resetGame in *.
    destruct (json.decode_map_string body) as [requestBody |];
      [| cbn [snd response_of] in Hr; injection Hr as <-; discriminate].
    destruct (String.eqb _ _);
      [cbn [snd response_of] in Hr; injection Hr as <-; discriminate |].
    destruct (redis.HMSet _ _ rdb) as [rdb1 | e];
      [| cbn [snd response_of] in Hr; injection Hr as <-; discriminate].
    destruct (getLatestLeaderboard _) as [lb | e] eqn:El.
    + cbn [fst] in Hh'. rewrite (getLatestLeaderboard_hash _ _ Hh') in El. discriminate.
    + cbn [snd response_of] in Hr. injection Hr as <-. discriminate.
Qed.

Lemma broken_leaderboard_stays_broken_witness :
  let rdb := fst (gameHandler "leaderboard" (fun _ => 0) ∅) in
  exists h', fst (gameHandler "bob" (fun _ => 0) rdb) !! "leaderboard"
             = Some (redis.Hash h').
Proof.
  cbv zeta.
  assert (Hh : fst (gameHandler "leaderboard" (fun _ => 0) ∅) !! "leaderboard"
               = Some (redis.Hash (seeded ["Cat card 😼"; "Cat card 😼"; "Cat card 😼";
                                           "Cat card 😼"; "Cat card 😼"])))
    by (vm_compute; reflexivity).
  apply (proj1 (proj1 (broken_leaderboard_stays_broken _ _ Hh) "bob" (fun _ => 0))).
Defined.

(** ** Repeating a request *)

Lemma set_fields_union (fvs : list (string * redis.arg)) (h : gmap string string) :
  redis.set_fields fvs h = redis.set_fields fvs ∅ ∪ h.
Proof.
  unfold redis.set_fields. revert h.
  induction fvs as [| [k v] l IH]; intros h; cbn [fold_left fst snd].
  - rewrite (left_id_L ∅ (∪)). reflexivity.
  - rewrite (IH (<[k := redis.bulk v]> h)), (IH (<[k := redis.bulk v]> ∅)).
    rewrite insert_empty, (insert_union_singleton_l h).
    rewrite (assoc_L (∪)). reflexivity.
Qed.

Lemma set_fields_idem (fvs : list (string * redis.arg)) (h : gmap string string) :
  redis.set_fields fvs (redis.set_fields fvs h) = redis.set_fields fvs h.
Proof.
  rewrite (set_fields_union fvs (redis.set_fields fvs h)), (set_fields_union fvs h).
  rewrite (assoc_L (∪)), (idemp_L (∪)). reflexivity.
Qed.

(** A write to the sorted set, made twice, is the write made once. *)
Lemma write_idem (d : redis.DB) (w : LeaderboardWrite) :
  write (write d w) w = write d w.
Proof.
  destruct (d !! "leaderboard") as [[h | m] |] eqn:E.
  - rewrite (write_on_hash d w h E). apply (write_on_hash d w h E).
  - destruct w as [n sc | n]; cbn [write]; unfold redis.ZAdd, redis.ZRem; rewrite E;
      cbn [redis.dropped redis.Member redis.Score].
    + rewrite lookup_insert_eq. cbn [redis.dropped].
      rewrite !insert_insert_eq. reflexivity.
    + destruct (decide (delete n m = ∅)) as [He | He]; cbn [redis.dropped].
      * rewrite lookup_delete_eq. reflexivity.
      * rewrite lookup_insert_eq.
        assert (Hd : delete n (delete n m) = delete n m)
          by (apply delete_id; apply lookup_delete_eq).
        rewrite Hd.
        destruct (decide (delete n m = ∅)); [contradiction |].
        cbn [redis.dropped]. rewrite insert_insert_eq. reflexivity.
  - destruct w as [n sc | n]; cbn [write]; unfold redis.ZAdd, redis.ZRem; rewrite E;
      cbn [redis.dropped redis.Member redis.Score].
    + rewrite lookup_insert_eq. cbn [redis.dropped].
      rewrite insert_insert_eq. f_equal. f_equal.
      rewrite <- insert_empty. rewrite insert_insert_eq. reflexivity.
    + rewrite E. reflexivity.
Qed.

(** A hash write followed by a write to the sorted set: doing both again
    changes nothing. *)
Lemma hash_then_write_idem (u : string) (fvs : list (string * redis.arg))
    (w : LeaderboardWrite) (d d1 : redis.DB) :
  redis.HMSet u fvs d = Ok d1 ->
  exists d2, redis.HMSet u fvs (write d1 w) = Ok d2 /\ write d2 w = write d1 w.
Proof.
  intros H. apply HMSet_Ok_inv in H. destruct H as (h & _ & ->).
  set (hv := redis.set_fields fvs h).
  destruct (decide (u = "leaderboard")) as [-> | Hne].
  - assert (Hh : (<["leaderboard" := redis.Hash hv]> d) !! "leaderboard"
                 = Some (redis.Hash hv)) by apply lookup_insert_eq.
    rewrite (write_on_hash _ w hv Hh).
    exists (<["leaderboard" := redis.Hash hv]> d).
    split; [| apply (write_on_hash _ w hv Hh)].
    unfold redis.HMSet. rewrite Hh. unfold hv. rewrite set_fields_idem.
    rewrite insert_insert_eq. reflexivity.
  - assert (Hk : write (<[u := redis.Hash hv]> d) w !! u = Some (redis.Hash hv)).
    { rewrite write_other_key by exact Hne. apply lookup_insert_eq. }
    exists (write (<[u := redis.Hash hv]> d) w). split; [| apply write_idem].
    unfold redis.HMSet. rewrite Hk. unfold hv. rewrite set_fields_idem.
    fold hv. rewrite (insert_id _ _ _ Hk). reflexivity.
Qed.

(** X9.  [DELETE /game] is idempotent on the store: the same request a
    second time leaves the store as the first one left it, whatever the
    body and the store. *)
Theorem resetGame_idempotent (body : string) (rdb : redis.DB) :
  fst (resetGame body (fst (resetGame body rdb))) = fst (resetGame body rdb).
Proof.
  destruct (resetGame_store body rdb)
    as [E | (requestBody & rdb1 & Hd & Hne & EH & ->)];
    [repeat rewrite E; reflexivity |].
  destruct (hash_then_write_idem _ _ (Remove (field requestBody "userName")) _ _ EH)
    as (d2 & EH2 & Hw).
  destruct (resetGame_store body (write rdb1 (Remove (field requestBody "userName"))))
    as [-> | (rb & rdb1' & Hd' & _ & EH' & ->)]; [reflexivity |].
  rewrite Hd in Hd'. injection Hd' as <-.
  rewrite EH2 in EH'. injection EH' as <-. exact Hw.
Qed.

(** X10.  [PUT /game] is idempotent on the store: the same body a second
    time leaves the store as the first request left it. *)
Theorem updateGameData_idempotent (body : string) (rdb : redis.DB) :
  fst (updateGameData body (fst (updateGameData body rdb)))
  = fst (updateGameData body rdb).
Proof.
  destruct (updateGameData_store body rdb)
    as [E | (requestBody & scoreStr & gameCards & rdb1 & Hd & Hs & Hc & EH & ->)];
    [repeat rewrite E; reflexivity |].
  set (w := Upsert (put_name requestBody) (float64_of_int (fst (strconv.Atoi scoreStr)))).
  destruct (hash_then_write_idem _ _ w _ _ EH) as (d2 & EH2 & Hw).
  destruct (updateGameData_store body (write rdb1 w))
    as [-> | (rb & sc & gc & rdb1' & Hd' & Hs' & Hc' & EH' & ->)]; [reflexivity |].
  rewrite Hd in Hd'. injection Hd' as <-.
  rewrite Hs in Hs'. injection Hs' as <-.
  rewrite Hc in Hc'. injection Hc' as <-.
  rewrite EH2 in EH'. injection EH' as <-. exact Hw.
Qed.

(** ** The empty name *)

(** X11.  [GET /game] with an empty name, on a store that has no key for
    it and whose leaderboard can be read, writes nothing, deals no cards
    and answers 200 with the zero state: score 0, no card, no defuse
    card, no active card. *)
Theorem gameHandler_empty_name (src : cardgenerator.Source) (rdb : redis.DB)
    (z : gmap string Z) :
  rdb !! EmptyString = None ->
  members rdb = Some z ->
  exists lb,
    gameHandler EmptyString src rdb
    = (rdb,
       Returned
         {| Status := StatusOK;
            Written :=
              [PGame {| Score := 0; GameCards := []; HasDefuseCard := false;
                        ActiveCard := None |} lb] |})
    /\ getLatestLeaderboard rdb = Ok lb.
Proof.
  intros Hk Hm.
  destruct (members_getLatestLeaderboard rdb z Hm) as (lb & Hlb & _).
  exists lb. split; [| exact Hlb].
  rewrite gameHandler_known.
  - unfold readGame, redis.HGetAll. rewrite Hk, Hlb. reflexivity.
  - rewrite (Exists_absent _ _ Hk). reflexivity.
Qed.

Lemma gameHandler_empty_name_witness :
  exists lb,
    gameHandler EmptyString (fun _ => 0) ∅
    = (∅,
       Returned
         {| Status := StatusOK;
            Written :=
              [PGame {| Score := 0; GameCards := []; HasDefuseCard := false;
                        ActiveCard := None |} lb] |})
    /\ getLatestLeaderboard ∅ = Ok lb.
Proof.
  apply (gameHandler_empty_name (fun _ => 0) ∅ ∅); [apply lookup_empty |].
  vm_compute. reflexivity.
Defined.

(** What a [PUT /game] that answers 200 has done. *)
Lemma updateGameData_ok_inv (body : string) (rdb rdb' : redis.DB) (o : Outcome)
    (r : Response) :
  updateGameData body rdb = (rdb', o) ->
  response_of o = Some r ->
  Status r = StatusOK ->
  exists requestBody scoreStr gameCards h lb,
    json.decode_map_interface body = Some requestBody
    /\ requestBody !! "score" = Some (json.JStr scoreStr)
    /\ requestBody !! "gameCards" = Some (json.JArr gameCards)
    /\ rdb' = write (<[put_name requestBody
                       := redis.Hash
                            (redis.set_fields
                               (put_fields requestBody scoreStr gameCards) h)]> rdb)
                (Upsert (put_name requestBody)
                   (float64_of_int (fst (strconv.Atoi scoreStr))))
    /\ getLatestLeaderboard rdb' = Ok lb.
Proof.
  intros H Ho Hs. unfold updateGameData in H.
  destruct (json.decode_map_interface body) as [requestBody |].
  2:{ injection H as <- <-. cbn [response_of] in Ho. injection Ho as <-.
      vm_compute in Hs. discriminate. }
  destruct (requestBody !! "score") as [[| | | scoreStr | |] |] eqn:Es;
    try (injection H as <- <-; discriminate).
  destruct (requestBody !! "gameCards") as [[| | | | gameCards |] |] eqn:Ec;
    try (injection H as <- <-; discriminate).
  fold (put_name requestBody) in H.
  destruct (redis.HMSet (put_name requestBody) _ rdb) as [rdb1 | e] eqn:EH.
  2:{ injection H as <- <-. cbn [response_of] in Ho. injection Ho as <-.
      vm_compute in Hs. discriminate. }
  apply HMSet_Ok_inv in EH. destruct EH as (h & _ & ->).
  fold_write.
  match type of H with context [write ?d ?w] => set (rdb2 := write d w) in * end.
  destruct (getLatestLeaderboard rdb2) as [lb | e] eqn:El.
  2:{ injection H as <- <-. cbn [response_of] in Ho. injection Ho as <-.
      vm_compute in Hs. discriminate. }
  injection H as <- <-.
  exists requestBody, scoreStr, gameCards, h, lb.
  repeat split; assumption || reflexivity.
Qed.

(** X12.  [PUT /game] does not ask for a name.  A body without a string
    [userName] that is answered with 200 has stored its fields under the
    empty key and has put the empty name into the leaderboard, so that a
    later [GET /game] with the empty name finds a player. *)
Theorem updateGameData_without_name
    (body : string) (requestBody : gmap string json.value)
    (rdb rdb' : redis.DB) (o : Outcome) (r : Response) :
  json.decode_map_interface body = Some requestBody ->
  (forall s, requestBody !! "userName" <> Some (json.JStr s)) ->
  updateGameData body rdb = (rdb', o) ->
  response_of o = Some r ->
  Status r = StatusOK ->
  (exists h, rdb' !! EmptyString = Some (redis.Hash h))
  /\ redis.Exists EmptyString rdb' = 1
  /\ exists lb, getLatestLeaderboard rdb' = Ok lb /\ EmptyString ∈ UserName <$> lb.
Proof.
  intros Hd Hn H Ho Hs.
  destruct (updateGameData_ok_inv body rdb rdb' o r H Ho Hs)
    as (rb & scoreStr & gameCards & h & lb & Hd' & _ & _ & -> & El).
  rewrite Hd in Hd'. injection Hd' as <-.
  assert (Hname : put_name requestBody = EmptyString).
  { unfold put_name. destruct (requestBody !! "userName") as [[| | | s | |] |] eqn:E;
      try reflexivity. destruct (Hn s). reflexivity. }
  rewrite Hname in *.
  destruct (hash_then_write rdb EmptyString _ _ lb El) as (Hne & Hkey & z & Hz & Hz').
  split; [eauto |]. split; [apply (Exists_present _ _ _ Hkey) |].
  exists lb. split; [exact El |].
  destruct (members_getLatestLeaderboard _ _ Hz') as (lb' & Hlb' & Hnames & _).
  rewrite El in Hlb'. injection Hlb' as <-.
  rewrite Hnames. cbn [written]. rewrite lookup_insert_eq. eauto.
Qed.

Lemma updateGameData_without_name_witness :
  let body := json.Marshal (json.JObj [("score", json.JStr "3");
                                       ("gameCards", json.JArr [])]) in
  redis.Exists EmptyString (fst (updateGameData body ∅)) = 1.
Proof.
  cbv zeta.
  set (body := json.Marshal (json.JObj [("score", json.JStr "3");
                                        ("gameCards", json.JArr [])])).
  assert (Hd : json.decode_map_interface body
               = Some (list_to_map [("gameCards", json.JArr []);
                                    ("score", json.JStr "3")]))
    by (vm_compute; reflexivity).
  assert (Ho : response_of (snd (updateGameData body ∅))
               = Some {| Status := StatusOK;
                         Written :=
                           [PLeaderboard [{| UserName := EmptyString; UserScore := 3 |}];
                            PEcho EmptyString false EmptyString 3 []] |})
    by (vm_compute; reflexivity).
  apply (proj1 (proj2 (updateGameData_without_name body _ ∅ _ _ _
                         Hd ltac:(intros s; vm_compute; discriminate)
                         (surjective_pairing _) Ho eq_refl))).
Defined.

(** ** The deck, card by card *)

Lemma draw_lookup (src : cardgenerator.Source) (d : list string) (i : nat) :
  (i < length d)%nat ->
  exists c, cardgenerator.Characters !! Z.to_nat (cardgenerator.Intn src i 4) = Some c
            /\ cardgenerator.draw src (Some d) i = Some (<[i := c]> d).
Proof.
  intros Hi. destruct (Characters_lookup src i) as (c & Hc & _).
  exists c. split; [exact Hc |].
  unfold cardgenerator.draw. rewrite Hc.
  destruct (decide (i < length d)%nat); [reflexivity | contradiction].
Qed.

(** X13.  The card at position [i] of the deck is the catalog entry
    picked by the [i]-th number taken from the random source: bits 32
    and 33 of its [i]-th 63-bit output. *)
Theorem GenerateRandomCards_positions (src : cardgenerator.Source) :
  exists deck,
    cardgenerator.GenerateRandomCards src = Some deck
    /\ forall i, (i < 5)%nat ->
         deck !! i
         = cardgenerator.Characters
             !! Z.to_nat (Z.land (Z.shiftr (Z.land (src i) (2 ^ 63 - 1)) 32) 3).
Proof.
  unfold cardgenerator.GenerateRandomCards.
  change (seq 0 5) with [0; 1; 2; 3; 4]%nat.
  set (e := EmptyString).
  change (replicate 5 e) with [e; e; e; e; e].
  unfold fold_left.
  destruct (draw_lookup src [e; e; e; e; e] 0) as (c0 & H0 & ->);
    [cbn [length]; lia |].
  change (<[0%nat := c0]> [e; e; e; e; e]) with [c0; e; e; e; e].
  destruct (draw_lookup src [c0; e; e; e; e] 1) as (c1 & H1 & ->);
    [cbn [length]; lia |].
  change (<[1%nat := c1]> [c0; e; e; e; e]) with [c0; c1; e; e; e].
  destruct (draw_lookup src [c0; c1; e; e; e] 2) as (c2 & H2 & ->);
    [cbn [length]; lia |].
  change (<[2%nat := c2]> [c0; c1; e; e; e]) with [c0; c1; c2; e; e].
  destruct (draw_lookup src [c0; c1; c2; e; e] 3) as (c3 & H3 & ->);
    [cbn [length]; lia |].
  change (<[3%nat := c3]> [c0; c1; c2; e; e]) with [c0; c1; c2; c3; e].
  destruct (draw_lookup src [c0; c1; c2; c3; e] 4) as (c4 & H4 & ->);
    [cbn [length]; lia |].
  change (<[4%nat := c4]> [c0; c1; c2; c3; e]) with [c0; c1; c2; c3; c4].
  exists [c0; c1; c2; c3; c4]. split; [reflexivity |].
  intros i Hi.
  destruct i as [| [| [| [| [| i]]]]]; [| | | | | lia]; symmetry; assumption.
Qed.

(** ** The deck of a new player, stored and read back *)

Lemma Marshal_strings (l : list string) :
  json.Marshal (json.JArr (map json.JStr l))
  = String "[" (strings_text l ++ String "]" EmptyString).
Proof.
  unfold strings_text.
  change (json.Marshal (json.JArr (map json.JStr l)))
    with (String "[" (json.join "," (map json.Marshal (map json.JStr l))
                      ++ String "]" EmptyString)).
  rewrite map_map. reflexivity.
Qed.

Lemma parse_elems_strings (l : list string) :
  forall (s : string) (f : nat) (d : Z) (rest : string),
    forallb utf8.ValidString (s :: l) = true ->
    json.parse_elems (length (s :: l) + 1 + f) d
      (strings_text (s :: l) ++ String "]" rest)
    = Some (map json.JStr (s :: l), rest).
Proof.
  induction l as [| s' l IH]; intros s f d rest Hv.
  - cbn [forallb] in Hv. apply andb_true_iff in Hv. destruct Hv as [Hs _].
    change (length [s] + 1 + f)%nat with (S (S f)).
    rewrite parse_elems_unfold.
    change (strings_text [s]) with (json.quote s).
    rewrite (parse_value_string f d s _ Hs). reflexivity.
  - cbn [forallb] in Hv. apply andb_true_iff in Hv. destruct Hv as [Hs Hrest].
    change (length (s :: s' :: l) + 1 + f)%nat with (S (length (s' :: l) + 1 + f)).
    rewrite parse_elems_unfold.
    change (strings_text (s :: s' :: l))
      with (json.join "," (json.quote s :: json.quote s' :: map json.quote l)).
    rewrite join_cons2, append_assoc.
    change (json.join "," (json.quote s' :: map json.quote l))
      with (strings_text (s' :: l)).
    replace (length (s' :: l) + 1 + f)%nat with (S (length (s' :: l) + f)) by lia.
    rewrite (parse_value_string _ d s _ Hs).
    change (("," ++ strings_text (s' :: l)) ++ String "]" rest)
      with (String "," (strings_text (s' :: l) ++ String "]" rest)).
    change (json.skip_ws (String "," (strings_text (s' :: l) ++ String "]" rest)))
      with (String "," (strings_text (s' :: l) ++ String "]" rest)).
    cbv iota. change (byte_val "," =? 44) with true. cbv iota.
    replace (S (length (s' :: l) + f)) with (length (s' :: l) + 1 + f)%nat by lia.
    rewrite (IH s' f d rest Hrest). reflexivity.
Qed.

Lemma quote_length (s : string) : (1 <= String.length (json.quote s))%nat.
Proof. unfold json.quote. cbn [String.length]. lia. Qed.

Lemma strings_text_length (l : list string) :
  (length l <= String.length (strings_text l))%nat.
Proof.
  induction l as [| s [| s' l] IH].
  - cbn. lia.
  - change (strings_text [s]) with (json.quote s).
    pose proof (quote_length s). cbn [length]. lia.
  - change (strings_text (s :: s' :: l))
      with (json.join "," (json.quote s :: json.quote s' :: map json.quote l)).
    rewrite join_cons2, !length_append.
    change (json.join "," (json.quote s' :: map json.quote l))
      with (strings_text (s' :: l)).
    pose proof (quote_length s). cbn [length] in *. lia.
Qed.

Lemma parse_value_bracket_quote (f : nat) (d : Z) (body : string) :
  (json.maxNestingDepth <? d + 1) = false ->
  json.parse_value (S f) d (String "[" (String quote_char body))
  = match json.parse_elems f (d + 1) (String quote_char body) with
    | Some (l, rest) => Some (json.JArr l, rest)
    | None => None
    end.
Proof.
  intros H. cbn [json.parse_value].
  change (json.skip_ws (String "[" (String quote_char body)))
    with (String "[" (String quote_char body)).
  cbv iota beta zeta. change (byte_val "[" =? 123) with false.
  change (byte_val "[" =? 91) with true. cbv iota. rewrite H.
  change (json.skip_ws (String quote_char body)) with (String quote_char body).
  cbv iota. change (byte_val quote_char =? 93) with false. reflexivity.
Qed.

(** An array of strings written by [Marshal] is a document that reads
    back as the same array. *)
Lemma document_Marshal_strings (l : list string) :
  forallb utf8.ValidString l = true ->
  json.document (json.Marshal (json.JArr (map json.JStr l)))
  = Some (json.JArr (map json.JStr l)).
Proof.
  intros Hv. unfold json.document. rewrite Marshal_strings.
  destruct l as [| s l].
  - reflexivity.
  - assert (Hlen : (length (s :: l) + 1
                    <= json.fuel_for (String "[" (strings_text (s :: l)
                                                   ++ String "]" EmptyString)) - 1)%nat).
    { unfold json.fuel_for. cbn [String.length]. rewrite length_append.
      pose proof (strings_text_length (s :: l)). cbn [String.length]. lia. }
    set (text := strings_text (s :: l) ++ String "]" EmptyString) in *.
    assert (Hhead : exists body, text = String quote_char body).
    { unfold text. destruct l as [| s' l'].
      - change (strings_text [s]) with (json.quote s). apply quote_head.
      - change (strings_text (s :: s' :: l'))
          with (json.join "," (json.quote s :: json.quote s' :: map json.quote l')).
        rewrite join_cons2, append_assoc. apply quote_head. }
    destruct Hhead as [body Hbody].
    destruct (json.fuel_for (String "[" text)) as [| F] eqn:EF;
      [unfold json.fuel_for in EF; lia |].
    rewrite Hbody, parse_value_bracket_quote by reflexivity. rewrite <- Hbody.
    replace F with (length (s :: l) + 1 + (F - (length (s :: l) + 1)))%nat by lia.
    unfold text. rewrite (parse_elems_strings l s _ (0 + 1) EmptyString Hv).
    reflexivity.
Qed.

(** An array of strings decodes into as many zero cards, with an error
    that the caller drops. *)
Lemma unmarshal_cards_strings (l : list string) :
  forallb utf8.ValidString l = true ->
  fst (unmarshal_cards (json.Marshal (json.JArr (map json.JStr l))))
  = map (fun _ => zero_card) l.
Proof.
  intros Hv. unfold unmarshal_cards. rewrite (document_Marshal_strings l Hv).
  cbn [fst]. rewrite map_map. reflexivity.
Qed.

Lemma Characters_valid (deck : list string) :
  Forall (fun c => In c cardgenerator.Characters) deck ->
  forallb utf8.ValidString deck = true.
Proof.
  induction 1 as [| c l Hc _ IH]; [reflexivity |].
  cbn [forallb]. rewrite IH, andb_true_r.
  cbn [In cardgenerator.Characters] in Hc.
  destruct Hc as [<- | [<- | [<- | [<- | []]]]]; vm_compute; reflexivity.
Qed.

(** X14.  The deck of a new player is stored as an array of strings, and
    [GET /game] decodes the stored array into cards: the answer to the
    first request of a new player carries five cards whose name and type
    are empty, not the names that were drawn. *)
Theorem gameHandler_new_player_sees_empty_cards
    (userName : string) (src : cardgenerator.Source) (rdb rdb' : redis.DB)
    (o : Outcome) (r : Response) :
  userName <> EmptyString ->
  rdb !! userName = None ->
  gameHandler userName src rdb = (rdb', o) ->
  response_of o = Some r ->
  Status r = StatusOK ->
  exists lb,
    r = {| Status := StatusOK;
           Written :=
             [PGame {| Score := 0; GameCards := replicate 5 zero_card;
                       HasDefuseCard := false; ActiveCard := None |} lb] |}.
Proof.
  intros Hne Hnew Hg Ho Hs.
  unfold gameHandler in Hg. rewrite (Exists_absent _ _ Hnew) in Hg.
  assert (En : String.eqb userName EmptyString = false)
    by (apply String.eqb_neq; exact Hne).
  rewrite En in Hg. cbn [Z.eqb andb negb] in Hg.
  destruct (GenerateRandomCards_shape src) as (c0 & c1 & c2 & c3 & c4 & Hdeck & Hall).
  rewrite Hdeck in Hg. set (deck := [c0; c1; c2; c3; c4]) in *.
  unfold initGame in Hg. unfold redis.HMSet in Hg. rewrite Hnew in Hg.
  change (redis.set_fields _ ∅) with (seeded deck) in Hg.
  set (rdb1 := <[userName := redis.Hash (seeded deck)]> rdb) in *.
  injection Hg as <- <-.
  unfold readGame in Ho. fold_write.
  destruct (redis.HGetAll userName (write rdb1 (Upsert userName 0))) as [hm | e] eqn:Eh.
  2:{ cbn [response_of] in Ho. injection Ho as <-. vm_compute in Hs. discriminate. }
  destruct (getLatestLeaderboard (write rdb1 (Upsert userName 0))) as [lb | e] eqn:El.
  2:{ cbn [response_of] in Ho. injection Ho as <-. vm_compute in Hs. discriminate. }
  destruct (hash_then_write rdb userName _ (Upsert userName 0) lb El)
    as (_ & Hkey & _).
  fold rdb1 in Hkey.
  unfold redis.HGetAll in Eh. rewrite Hkey in Eh. injection Eh as <-.
  cbn [response_of] in Ho. injection Ho as <-.
  exists lb. f_equal. f_equal. f_equal.
  destruct (decodeGameData_seeded deck) as (H1 & H2 & H3).
  assert (H4 : GameCards (decodeGameData (seeded deck)) = replicate 5 zero_card).
  { unfold decodeGameData, field, seeded. cbn [GameCards].
    rewrite (lookup_insert_ne _ "activeCard" "gameCards") by discriminate.
    rewrite (lookup_insert_ne _ "hasDefuseCard" "gameCards") by discriminate.
    rewrite lookup_insert_eq. cbn [default]. unfold id.
    rewrite (unmarshal_cards_strings deck (Characters_valid deck Hall)).
    reflexivity. }
  destruct (decodeGameData (seeded deck)) as [sc gc hd ac].
  cbn [Score HasDefuseCard ActiveCard GameCards] in *. subst. reflexivity.
Qed.

Lemma gameHandler_new_player_sees_empty_cards_witness :
  exists lb,
    {| Status := StatusOK;
       Written :=
         [PGame {| Score := 0; GameCards := replicate 5 zero_card;
                   HasDefuseCard := false; ActiveCard := None |}
            [{| UserName := "bob"; UserScore := 0 |}]] |}
    = {| Status := StatusOK;
         Written :=
           [PGame {| Score := 0; GameCards := replicate 5 zero_card;
                     HasDefuseCard := false; ActiveCard := None |} lb] |}.
Proof.
  assert (Hne : "bob" <> EmptyString) by discriminate.
  assert (Hnew : (∅ : redis.DB) !! "bob" = None) by apply lookup_empty.
  assert (Ho : response_of (snd (gameHandler "bob" (fun _ => 0) ∅))
               = Some {| Status := StatusOK;
                         Written :=
                           [PGame {| Score := 0; GameCards := replicate 5 zero_card;
                                     HasDefuseCard := false; ActiveCard := None |}
                              [{| UserName := "bob"; UserScore := 0 |}]] |})
    by (vm_compute; reflexivity).
  exact (gameHandler_new_player_sees_empty_cards "bob" (fun _ => 0) ∅ _ _ _
           Hne Hnew (surjective_pairing _) Ho eq_refl).
Defined.

(** ** The score in the hash and in the leaderboard *)

Lemma parse_uint_loop_range (s : string) (a : Z) :
  0 <= a <= maxUint64 -> 0 <= fst (strconv.parse_uint_loop s a) <= maxUint64.
Proof.
  revert a. induction s as [| c r IH]; intros a Ha; cbn [strconv.parse_uint_loop].
  - exact Ha.
  - assert (Hmax : maxUint64 = 18446744073709551615) by reflexivity.
    destruct (strconv.is_digit c) eqn:Ec; [| cbn; lia].
    apply is_digit_range in Ec.
    destruct (maxUint64 / 10 + 1 <=? a); [cbn; lia |].
    destruct (maxUint64 <? a * 10 + (byte_val c - 48)) eqn:E2; [cbn; lia |].
    apply Z.ltb_ge in E2. apply IH. lia.
Qed.

(** [Atoi] returns an [int], whatever the string. *)
Lemma Atoi_range (s : string) : minInt64 <= fst (strconv.Atoi s) <= maxInt64.
Proof.
  unfold strconv.Atoi, strconv.ParseInt, minInt64, maxInt64.
  assert (H63 : 2 ^ 63 = 9223372036854775808) by reflexivity.
  destruct s as [| c r]; [cbn; lia |].
  set (body := if Ascii.eqb c "+" || Ascii.eqb c "-" then r else String c r).
  assert (Hu : 0 <= fst (strconv.ParseUint body) <= maxUint64).
  { unfold strconv.ParseUint. destruct body; [cbn; unfold maxUint64; lia |].
    apply parse_uint_loop_range. unfold maxUint64. lia. }
  destruct (strconv.ParseUint body) as [un [[] |]]; cbn [fst] in *;
    try (cbn; lia);
    (destruct (negb (Ascii.eqb c "-") && (2 ^ 63 <=? un)) eqn:E1; [cbn [fst]; lia |];
     destruct (Ascii.eqb c "-" && (2 ^ 63 <? un)) eqn:E2; [cbn [fst]; lia |];
     cbn [fst]; destruct (Ascii.eqb c "-"); cbn [negb andb] in E1, E2;
     [apply Z.ltb_ge in E2 | apply Z.leb_gt in E1]; lia).
Qed.


